(** * The store API of OK Log (pkg/store/api.go), embedded in Rocq.

  The handlers of [api.go] are stateful Go methods.  They are rendered
  here as state-passing functions: the response writer, the [API] value
  (counters, histogram, logger, the calls made on the log and on the
  HTTP client) and the request are threaded explicitly, and everything
  a handler obtains from a collaborator that lives outside [api.go]
  (the cluster peer, the log, the HTTP client, the clock) comes from an
  oracle record or from the [Store] class. *)

From Stdlib Require Import String Ascii ZArith List Bool Lia Permutation.
From Stdlib Require Import Arith DecimalString.
Import ListNotations.
Open Scope string_scope.
Open Scope Z_scope.

(** ** Go integers *)

(** Go's [int] on the 64-bit targets OK Log is built for: two's complement
  with silent wrap-around. *)
Definition int_min : Z := - 2 ^ 63.
Definition int_max : Z := 2 ^ 63 - 1.

Definition wrap_int (z : Z) : Z := (z + 2 ^ 63) mod 2 ^ 64 - 2 ^ 63.

Definition in_int (z : Z) : Prop := int_min <= z <= int_max.

(** ** Strings *)

Definition nl : string := String (ascii_of_nat 10) EmptyString.

(** A Go [error] is carried as the text its [Error()] method returns;
  [nil] is [None]. *)
Definition error : Type := string.

(** ** net/http: status codes, response writers, helpers *)

Module http.

Definition StatusOK : Z := 200.
Definition StatusTemporaryRedirect : Z := 307.
Definition StatusBadRequest : Z := 400.
Definition StatusNotFound : Z := 404.
Definition StatusPreconditionFailed : Z := 412.
Definition StatusInternalServerError : Z := 500.
Definition StatusServiceUnavailable : Z := 503.

(** Method names, as far as the interfaces used by [api.go] go. *)
Inductive method_name : Type :=
| Header_m | Write_m | WriteHeader_m | Flush_m.

Definition method_name_eqb (a b : method_name) : bool :=
  match a, b with
  | Header_m, Header_m | Write_m, Write_m
  | WriteHeader_m, WriteHeader_m | Flush_m, Flush_m => true
  | _, _ => false
  end.

(** An interface type is the list of methods it demands. *)
Definition interface : Type := list method_name.

(** [type ResponseWriter interface { Header(); Write(); WriteHeader() }] *)
Definition ResponseWriter_iface : interface :=
  [Header_m; Write_m; WriteHeader_m].

(** [type Flusher interface { Flush() }] *)
Definition Flusher_iface : interface := [Flush_m].

(** A dynamic type implements an interface when its method set has every
    method of the interface. *)
Definition implements (method_set : list method_name) (i : interface) : bool :=
  forallb (fun m => existsb (method_name_eqb m) method_set) i.

(** What has reached the client connection so far. *)
Record response : Type := mkResponse {
  header : list (string * string);   (* the header map, latest Set first *)
  status : option Z;                 (* None until the header is written *)
  body : string;
  flushes : nat
}.

Definition fresh_response : response := mkResponse [] None "" 0.

(** The writer the server hands to [ServeHTTP]: some concrete type that
    implements [ResponseWriter] and perhaps more ([Flusher] for the
    standard server's writer). *)
Record conn : Type := mkConn {
  conn_methods : list method_name;   (* method set of the dynamic type *)
  conn_resp : response
}.

Definition conn_set_header (k v : string) (c : conn) : conn :=
  let r := conn_resp c in
  mkConn (conn_methods c)
         (mkResponse ((k, v) :: header r) (status r) (body r) (flushes r)).

(** The first [WriteHeader] fixes the status; later ones are ignored.
    This is the server's behaviour for a final status code, 101 or 200 to
    999, which are the codes [api.go] passes (307, 4xx, 5xx); a code from
    100 to 199 other than 101 is sent as an interim response and a code
    outside 100 to 999 makes the server panic, and neither is part of
    this model. *)
Definition conn_WriteHeader (code : Z) (c : conn) : conn :=
  let r := conn_resp c in
  match status r with
  | Some _ => c
  | None => mkConn (conn_methods c)
                   (mkResponse (header r) (Some code) (body r) (flushes r))
  end.

(** [Write] sends the header with 200 first when none was written. *)
Definition conn_Write (b : string) (c : conn) : conn :=
  let c := conn_WriteHeader StatusOK c in
  let r := conn_resp c in
  mkConn (conn_methods c)
         (mkResponse (header r) (status r) (body r ++ b) (flushes r)).

Definition conn_Flush (c : conn) : conn :=
  let c := conn_WriteHeader StatusOK c in
  let r := conn_resp c in
  mkConn (conn_methods c)
         (mkResponse (header r) (status r) (body r) (S (flushes r))).

End http.

(** ** interceptingWriter (api.go, lines 100-108) *)

(** [type interceptingWriter struct { code int; http.ResponseWriter }] *)
Record interceptingWriter : Type := mkIW {
code : Z;
ResponseWriter : http.conn
}.

(** A value of interface type [http.ResponseWriter] as the handlers see
  it: the server's writer itself, or a pointer to an
  [interceptingWriter] around it. *)
Inductive writer : Type :=
| Direct (c : http.conn)
| Intercepting (iw : interceptingWriter).

(** Method set of the dynamic type behind a [writer].  [*interceptingWriter]
  declares [WriteHeader] and embeds a field of the interface type
  [http.ResponseWriter]: embedding promotes the methods of the field's
  declared type, that is [Header], [Write] and [WriteHeader], and nothing
  of what the wrapped value may implement besides. *)
Definition method_set (w : writer) : list http.method_name :=
match w with
| Direct c => http.conn_methods c
| Intercepting _ => http.WriteHeader_m :: http.ResponseWriter_iface
end.

(** [flusher, ok := w.(http.Flusher)] : the [ok] of the type assertion. *)
Definition assert_Flusher (w : writer) : bool :=
http.implements (method_set w) http.Flusher_iface.

(** The connection a writer ends in. *)
Definition underlying (w : writer) : http.conn :=
match w with
| Direct c => c
| Intercepting iw => ResponseWriter iw
end.

Definition sent (w : writer) : http.response := http.conn_resp (underlying w).

(** [w.Header().Set(k, v)]: [Header] is promoted from the embedded field. *)
Definition rw_Header_Set (k v : string) (w : writer) : writer :=
match w with
| Direct c => Direct (http.conn_set_header k v c)
| Intercepting iw =>
    Intercepting (mkIW (code iw) (http.conn_set_header k v (ResponseWriter iw)))
end.

(** [func (iw *interceptingWriter) WriteHeader(code int)]:
  [iw.code = code; iw.ResponseWriter.WriteHeader(code)]. *)
Definition rw_WriteHeader (c : Z) (w : writer) : writer :=
match w with
| Direct cn => Direct (http.conn_WriteHeader c cn)
| Intercepting iw =>
    Intercepting (mkIW c (http.conn_WriteHeader c (ResponseWriter iw)))
end.

(** [w.Write(b)]: promoted from the embedded field, so the implicit 200 of
  a first write is sent by the wrapped writer and never passes through
  [interceptingWriter.WriteHeader]. *)
Definition rw_Write (b : string) (w : writer) : writer :=
match w with
| Direct c => Direct (http.conn_Write b c)
| Intercepting iw =>
    Intercepting (mkIW (code iw) (http.conn_Write b (ResponseWriter iw)))
end.

(** [flusher.Flush()], for a writer that passed the type assertion. *)
Definition rw_Flush (w : writer) : writer :=
match w with
| Direct c => Direct (http.conn_Flush c)
| Intercepting iw => Intercepting iw
end.

(** [fmt.Fprintln(w, s)] *)
Definition Fprintln (s : string) (w : writer) : writer := rw_Write (s ++ nl) w.

(** [http.Error(w, msg, code)] *)
Definition http_Error (msg : string) (c : Z) (w : writer) : writer :=
let w := rw_Header_Set "Content-Type" "text/plain; charset=utf-8" w in
let w := rw_Header_Set "X-Content-Type-Options" "nosniff" w in
let w := rw_WriteHeader c w in
Fprintln msg w.

(** [http.NotFound(w, r)] *)
Definition http_NotFound (w : writer) : writer :=
http_Error "404 page not found" http.StatusNotFound w.

(** [http.StatusText], for the codes of this file. *)
Definition StatusText (c : Z) : string :=
if c =? http.StatusOK then "OK"
else if c =? http.StatusTemporaryRedirect then "Temporary Redirect"
else if c =? http.StatusBadRequest then "Bad Request"
else if c =? http.StatusNotFound then "Not Found"
else if c =? http.StatusPreconditionFailed then "Precondition Failed"
else if c =? http.StatusInternalServerError then "Internal Server Error"
else if c =? http.StatusServiceUnavailable then "Service Unavailable"
else "".

Definition dquote : string := String (ascii_of_nat 34) EmptyString.

(** The [htmlEscape] of net/http. *)
Fixpoint htmlEscape (s : string) : string :=
match s with
| EmptyString => EmptyString
| String c t =>
    (if Ascii.eqb c "&" then "&amp;"
     else if Ascii.eqb c "<" then "&lt;"
     else if Ascii.eqb c ">" then "&gt;"
     else if Ascii.eqb c (ascii_of_nat 34) then "&#34;"
     else if Ascii.eqb c "'" then "&#39;"
     else String c EmptyString) ++ htmlEscape t
end.

(** Whether the header map has the key [k]. *)
Definition has_header (k : string) (h : list (string * string)) : bool :=
existsb (fun kv => (fst kv =? k)%string) h.


(** [http.Redirect(w, r, url, code)] for a GET request and an ASCII
    target that is an absolute URL, or an absolute path that [path.Clean]
    leaves as it is: the Location header is the target; when no content
    type was set before, the content type is set to HTML and, after the
    status, a short note with a link to the target is written. *)
Definition http_Redirect (url : string) (c : Z) (w : writer) : writer :=
let hadCT := has_header "Content-Type" (http.header (sent w)) in
let w := rw_Header_Set "Location" url w in
let w := if hadCT then w
         else rw_Header_Set "Content-Type" "text/html; charset=utf-8" w in
let w := rw_WriteHeader c w in
if hadCT then w
else Fprintln ("<a href=" ++ dquote ++ htmlEscape url ++ dquote ++ ">"
               ++ StatusText c ++ "</a>." ++ nl) w.

(** A [WriteHeader], header [Set] or [Write] call, for code outside
    [api.go] that writes a response ([QueryResult.EncodeTo]). *)
Inductive wcall : Type :=
| call_Set (k v : string)
| call_WriteHeader (c : Z)
| call_Write (b : string).

Definition do_wcall (w : writer) (c : wcall) : writer :=
match c with
| call_Set k v => rw_Header_Set k v w
| call_WriteHeader c => rw_WriteHeader c w
| call_Write b => rw_Write b w
end.

Definition do_wcalls (cs : list wcall) (w : writer) : writer :=
fold_left do_wcall cs w.

(** ** net/url *)

(** The fields of [url.URL] that a URL of this API can have set;
    [ForceQuery] is set by [url.Parse] for a URL that ends in a question
    mark with nothing after it. *)
Record URL : Type := mkURL {
Scheme : string;
Host : string;
Path : string;
RawQuery : string;
ForceQuery : bool
}.

(** [u.String()], for hosts and paths that need no escaping: the text is
    put together from the fields of [u] and from nothing else. *)
Definition URL_String (u : URL) : string :=
((if Scheme u =? "" then "" else Scheme u ++ ":")
 ++ (if (Scheme u =? "") && (Host u =? "") then ""
     else if (Host u =? "") && (Path u =? "") then ""
     else "//" ++ Host u)
 ++ Path u
 ++ (if ForceQuery u || negb (RawQuery u =? "") then "?" ++ RawQuery u else ""))%string.

(** An [io.Reader] seen from its consumer: the bytes it delivers, and the
    error that ends them when it is not [io.EOF]. *)
Record Reader : Type := mkReader {
content : string;
failure : option error
}.

(** [ioutil.ReadAll] returns what was read and the error, if any. *)
Definition ReadAll (r : Reader) : string * option error :=
(content r, failure r).

(** [strings.TrimSpace], on ASCII white space. *)
Definition is_space (c : ascii) : bool :=
let n := nat_of_ascii c in
((n =? 32) || (n =? 9) || (n =? 10) || (n =? 11) || (n =? 12) || (n =? 13))%nat.

Fixpoint trim_left (s : string) : string :=
match s with
| String c t => if is_space c then trim_left t else s
| EmptyString => EmptyString
end.

Fixpoint trim_right (s : string) : string :=
match s with
| String c t =>
    match trim_right t with
    | EmptyString => if is_space c then EmptyString else String c EmptyString
    | t' => String c t'
    end
| EmptyString => EmptyString
end.

Definition TrimSpace (s : string) : string := trim_right (trim_left s).

(** ** The store API URL paths (api.go, lines 22-30) *)

Definition APIPathUserQuery : string := "/query".
Definition APIPathInternalQuery : string := "/_query".
Definition APIPathUserStream : string := "/stream".
Definition APIPathInternalStream : string := "/_stream".
Definition APIPathReplicate : string := "/replicate".
Definition APIPathClusterState : string := "/_clusterstate".

(** ** What [api.go] uses and does not define *)

(** [QueryResult] (query.go): [api.go] touches [Params], [ErrorCount] and
    [Duration]; whatever else the struct carries is [Rest]. *)
Record QueryResult (QP St : Type) : Type := mkQueryResult {
Params : QP;
ErrorCount : Z;
Duration : string;
Rest : St
}.
Arguments mkQueryResult {QP St}.
Arguments Params {QP St}.
Arguments ErrorCount {QP St}.
Arguments Duration {QP St}.
Arguments Rest {QP St}.

(** The types and functions of the packages around [api.go] (query.go,
    the record merger, net/url, the peers' answers), as parameters. *)
Class Store : Type := {
  (* net/url *)
  Values : Type;                            (* url.Values *)
  ParseQuery : string -> Values;            (* what URL.Query() keeps of url.ParseQuery *)
  url_Parse : string -> error + URL;        (* url.Parse *)
  (* query.go *)
  QueryParams : Type;
  MakeQueryParams : Values -> error + QueryParams;
  EncodeTo : QueryParams -> Values -> Values;       (* the map after qp.EncodeTo(map) *)
  Stats : Type;
  zero_Stats : Stats;                               (* the zero value of the other fields *)
  Merge : QueryResult QueryParams Stats -> QueryResult QueryParams Stats ->
          error + QueryResult QueryParams Stats;    (* the receiver after qr.Merge(other) *)
  QueryResult_EncodeTo : QueryResult QueryParams Stats -> list wcall;
  (* the answer of a peer *)
  Response : Type;                                  (* *http.Response *)
  StatusCode : Response -> Z;
  Body : Response -> Reader;
  DecodeFrom : Response -> QueryResult QueryParams Stats;
  (* record merging *)
  ULID : Type;
  mergeRecords : Reader -> ULID * ULID * Z * option error;
  mergeRecords_written : Reader -> string           (* what it wrote to the segment *)
}.

(** ** Requests, the API value, the environment *)

Section Handlers.

Context {store : Store}.

Definition Result : Type := QueryResult QueryParams Stats.

(** [*http.Request]: what the handlers read of it. *)
Record Request : Type := mkRequest {
Method : string;
R_URL : URL;
R_Body : Reader
}.

(** [http.NewRequest(method, urlStr, nil)] parses [urlStr] again; the two
    methods passed here, GET and HEAD, are valid ones. *)
Definition http_NewRequest (method urlStr : string) : error + Request :=
match url_Parse urlStr with
| inl e => inl e
| inr u => inr (mkRequest method u (mkReader "" None))
end.

(** [type response struct { resp *http.Response; err error }] of
    [handleUserQuery]; [http.Client.Do] returns a response exactly when it
    returns no error. *)
Inductive response : Type :=
| failed (err : error)
| answered (resp : Response).

(** One [select] of a stream loop: a record arrived, or the request's
    context is done. *)
Inductive selected : Type :=
| record_in (rec : string)
| ctx_Done.

(** Calls on the collaborators, in the order a handler makes them. *)
Inductive Event : Type :=
| peer_Current                        (* a.peer.Current(cluster.PeerTypeStore) *)
| peer_State                          (* a.peer.State() *)
| call_MakeQueryParams (v : Values)   (* MakeQueryParams(r.URL.Query()) *)
| go_Do (req : Request)               (* go func(req) { http.DefaultClient.Do(req) } *)
| go_stream_Execute                   (* go stream.Execute(...) *)
| log_Query (q : QueryParams) (statsOnly : bool)
| log_Stream (q : QueryParams)
| log_Create
| segment_Write (b : string)          (* the writes of mergeRecords *)
| segment_Delete
| segment_Close (low high : ULID)
| Body_Close.                         (* r.Body.Close() *)

(** A line of the error log of the gather loop. *)
Inductive LogLine : Type :=
| gather_err (err : string)
| gather_status (status_code : Z) (err : string).

(** The [API] value with what the handlers change through it.  The two
    Prometheus counters hold whole numbers here ([float64] is exact on
    them below 2^53); a sample of the [duration] histogram is kept as its
    three labels, the status code as the number [strconv.Itoa] prints. *)
Record API : Type := mkAPI {
calls : list Event;                       (* newest last *)
replicatedSegments : Z;
replicatedBytes : Z;
duration : list (string * string * Z);    (* newest last *)
logger : list LogLine;                    (* newest last *)
garbage : list Values                     (* maps made by u.Query() and dropped *)
}.

Definition emit (e : Event) (a : API) : API :=
mkAPI (calls a ++ [e]) (replicatedSegments a) (replicatedBytes a)
      (duration a) (logger a) (garbage a).

Definition Log (l : LogLine) (a : API) : API :=
mkAPI (calls a) (replicatedSegments a) (replicatedBytes a)
      (duration a) (logger a ++ [l]) (garbage a).

Definition drop_map (v : Values) (a : API) : API :=
mkAPI (calls a) (replicatedSegments a) (replicatedBytes a)
      (duration a) (logger a) (garbage a ++ [v]).

(** [a.replicatedSegments.Inc()] *)
Definition replicatedSegments_Inc (a : API) : API :=
mkAPI (calls a) (replicatedSegments a + 1) (replicatedBytes a)
      (duration a) (logger a) (garbage a).

(** [a.replicatedBytes.Add(float64(n))], for [n >= 0]. *)
Definition replicatedBytes_Add (n : Z) (a : API) : API :=
mkAPI (calls a) (replicatedSegments a) (replicatedBytes a + n)
      (duration a) (logger a) (garbage a).

(** [a.duration.WithLabelValues(method, path, code).Observe(...)] *)
Definition Observe (method path : string) (c : Z) (a : API) : API :=
mkAPI (calls a) (replicatedSegments a) (replicatedBytes a)
      (duration a ++ [(method, path, c)]) (logger a) (garbage a).

(** What the collaborators answer during one request. *)
Record Env : Type := mkEnv {
members : list string;                 (* a.peer.Current(cluster.PeerTypeStore) *)
Do : Request -> response;              (* http.DefaultClient.Do *)
arrival : list nat;                    (* which pending goroutine sends next on c *)
since : string;                        (* time.Since(begin).String() *)
Query : QueryParams -> bool -> error + Result;     (* a.log.Query *)
Create : option error;                 (* the error of a.log.Create() *)
Close : ULID -> ULID -> option error;  (* segment.Close(low, high) *)
selects : list selected;               (* what the selects of a stream loop get *)
State : error + string                 (* json.MarshalIndent(a.peer.State(), ...) *)
}.

(** How a handler call ends: it returns, it panics, or it waits forever
    in a [select]. *)
Inductive outcome : Type :=
| Returned
| Panicked (msg : string)
| Blocked.

Record exec : Type := mkExec {
out : outcome;
rw : writer;
api : API
}.

Definition returned (w : writer) (a : API) : exec := mkExec Returned w a.

(** ** handleUserQuery (api.go, lines 110-198) *)

(** [errors.Wrapf(err, format, ...)] and [errors.Wrap(err, msg)] print as
    the message, a colon, and the cause. *)
Definition Wrap (err : error) (msg : string) : error := msg ++ ": " ++ err.

(** The loop of lines 131-147, from the member [hostport] on; [requests]
    are the ones built so far. *)
Fixpoint build_requests (query : QueryParams) (method : string)
  (members : list string) (requests : list Request) (a : API)
  : (error * API) + (list Request * API) :=
match members with
| [] => inr (requests, a)
| hostport :: rest =>
    match url_Parse ("http://" ++ hostport ++ "/store" ++ APIPathInternalQuery) with
    | inl err => inl (Wrap err ("constructing URL for " ++ hostport), a)
    | inr u =>
        (* query.EncodeTo(u.Query()): u.Query() parses u.RawQuery into a
           new map, EncodeTo fills that map, nothing keeps it *)
        let a := drop_map (EncodeTo query (ParseQuery (RawQuery u))) a in
        match http_NewRequest method (URL_String u) with
        | inl err => inl (Wrap err ("constructing request for " ++ hostport), a)
        | inr req => build_requests query method rest (requests ++ [req]) a
        end
    end
end.

(** The goroutines of lines 154-160 send their outcome on [c] in some
    order: [take_nth i] removes the one that sends next from the pending
    ones. *)
Fixpoint take_nth {A : Type} (i : nat) (l : list A) {struct l}
  : option (A * list A) :=
match l with
| [] => None
| x :: t =>
    match i with
    | O => Some (x, t)
    | S j =>
        match take_nth j t with
        | Some (y, t') => Some (y, x :: t')
        | None => None
        end
    end
end.

(** Lines 162-165: [k] receives from [c]. *)
Fixpoint receive {A : Type} (k : nat) (picks : list nat) (pending : list A)
  : list A :=
match k with
| O => []
| S k' =>
    let i := match picks with [] => O | p :: _ => Nat.modulo p (length pending) end in
    match take_nth i pending with
    | Some (x, rest) => x :: receive k' (tl picks) rest
    | None => []
    end
end.

(** [result.ErrorCount++] *)
Definition ErrorCount_incr (result : Result) : Result :=
mkQueryResult (Params result) (wrap_int (ErrorCount result + 1))
              (Duration result) (Rest result).

Definition set_Duration (d : string) (result : Result) : Result :=
mkQueryResult (Params result) (ErrorCount result) d (Rest result).

(** What is logged for an answer with a status other than 200
    (lines 176-184); the body of the answer is closed after the read,
    which leaves no trace here. *)
Definition status_line (resp : Response) : LogLine :=
let (buf, err) := ReadAll (Body resp) in
let buf := match err with Some e => e | None => buf end in
let buf := if (String.length buf =? 0)%nat then "unknown" else buf in
gather_status (StatusCode resp) (TrimSpace buf).

(** The loop of lines 169-195: the merged result, or the error of the
    [Merge] that failed. *)
Fixpoint gather (responses : list response) (result : Result) (a : API)
  : (error * API) + (Result * API) :=
match responses with
| [] => inr (result, a)
| failed err :: rest =>
    gather rest (ErrorCount_incr result) (Log (gather_err err) a)
| answered resp :: rest =>
    if negb (StatusCode resp =? http.StatusOK) then
      gather rest (ErrorCount_incr result) (Log (status_line resp) a)
    else
      (* var partialResult QueryResult; partialResult.DecodeFrom(resp),
         its error dropped *)
      match Merge result (DecodeFrom resp) with
      | inl err => inl (Wrap err "merging results", a)
      | inr result => gather rest result a
      end
end.

(** [r.URL.Query()] *)
Definition URL_Query (u : URL) : Values := ParseQuery (RawQuery u).

Definition handleUserQuery (env : Env) (a : API) (w : writer) (r : Request)
  (statsOnly : bool) : exec :=
let a := emit peer_Current a in
let members := members env in
if (length members <=? 0)%nat then
  returned (http_Error "no store nodes available" http.StatusServiceUnavailable w) a
else
  let a := emit (call_MakeQueryParams (URL_Query (R_URL r))) a in
  match MakeQueryParams (URL_Query (R_URL r)) with
  | inl err => returned (http_Error err http.StatusBadRequest w) a
  | inr query =>
      let method := if statsOnly then "HEAD" else "GET" in
      match build_requests query method members [] a with
      | inl (err, a) => returned (http_Error err http.StatusInternalServerError w) a
      | inr (requests, a) =>
          let a := fold_left (fun a req => emit (go_Do req) a) requests a in
          let responses :=
            receive (length requests) (arrival env) (map (Do env) requests) in
          let result := mkQueryResult query 0 "" zero_Stats in
          match gather responses result a with
          | inl (err, a) =>
              returned (http_Error err http.StatusInternalServerError w) a
          | inr (result, a) =>
              let result := set_Duration (since env) result in
              returned (do_wcalls (QueryResult_EncodeTo result) w) a
          end
      end
  end.

(** ** handleInternalQuery (api.go, lines 200-214) *)

Definition handleInternalQuery (env : Env) (a : API) (w : writer) (r : Request)
  (statsOnly : bool) : exec :=
let a := emit (call_MakeQueryParams (URL_Query (R_URL r))) a in
match MakeQueryParams (URL_Query (R_URL r)) with
| inl err => returned (http_Error err http.StatusBadRequest w) a
| inr query =>
    let a := emit (log_Query query statsOnly) a in
    match Query env query statsOnly with
    | inl err => returned (http_Error err http.StatusInternalServerError w) a
    | inr result => returned (do_wcalls (QueryResult_EncodeTo result) w) a
    end
end.

(** ** handleUserStream (api.go, lines 216-261) *)

(** The function handed to [stream.HTTPReaderFactory] (lines 233-240):
    the URL of the internal stream of the peer [addr], or the panic. *)
Definition stream_url (query : QueryParams) (addr : string) (a : API)
  : (error + string) * API :=
match url_Parse ("http://" ++ addr ++ "/store" ++ APIPathInternalStream) with
| inl err => (inl err, a)
| inr u =>
    let a := drop_map (EncodeTo query (ParseQuery (RawQuery u))) a in
    (inr (URL_String u), a)
end.

(** The loop of lines 252-260. *)
Fixpoint user_stream_loop (sel : list selected) (w : writer) : outcome * writer :=
match sel with
| [] => (Blocked, w)
| record_in rec :: sel => user_stream_loop sel (rw_Flush (rw_Write (rec ++ nl) w))
| ctx_Done :: _ => (Returned, w)
end.

Definition handleUserStream (env : Env) (a : API) (w : writer) (r : Request)
  : exec :=
let a := emit (call_MakeQueryParams (URL_Query (R_URL r))) a in
match MakeQueryParams (URL_Query (R_URL r)) with
| inl err => returned (http_Error err http.StatusBadRequest w) a
| inr query =>
    if negb (assert_Flusher w) then
      returned
        (http_Error "can't stream to your client" http.StatusPreconditionFailed w) a
    else
      let a := emit go_stream_Execute a in
      let (o, w) := user_stream_loop (selects env) w in
      mkExec o w a
end.

(** ** handleInternalStream (api.go, lines 263-292) *)

(** The loop of lines 282-291; [fmt.Fprintf(w, "%s\n", record)] writes the
    record and a newline. *)
Fixpoint internal_stream_loop (sel : list selected) (w : writer) : outcome * writer :=
match sel with
| [] => (Blocked, w)
| ctx_Done :: _ => (Returned, w)
| record_in rec :: sel => internal_stream_loop sel (rw_Flush (rw_Write (rec ++ nl) w))
end.

Definition handleInternalStream (env : Env) (a : API) (w : writer) (r : Request)
  : exec :=
let a := emit (call_MakeQueryParams (URL_Query (R_URL r))) a in
match MakeQueryParams (URL_Query (R_URL r)) with
| inl err => returned (http_Error err http.StatusBadRequest w) a
| inr query =>
    if negb (assert_Flusher w) then
      returned
        (http_Error "can't stream to your client" http.StatusPreconditionFailed w) a
    else
      let a := emit (log_Stream query) a in
      (* [if err != nil] of line 277 tests the nil error of line 264 *)
      let (o, w) := internal_stream_loop (selects env) w in
      mkExec o w a
end.

(** ** handleReplicate (api.go, lines 294-318) *)

(** [prometheus.Counter.Add] panics on a negative argument. *)
Definition counter_panic : string := "counter cannot decrease in value".

Definition handleReplicate (env : Env) (a : API) (w : writer) (r : Request)
  : exec :=
let x :=
  let a := emit log_Create a in
  match Create env with
  | Some err => returned (http_Error err http.StatusInternalServerError w) a
  | None =>
      let '(low, high, n, err) := mergeRecords (R_Body r) in
      let a := emit (segment_Write (mergeRecords_written (R_Body r))) a in
      match err with
      | Some err =>
          let a := emit segment_Delete a in
          returned (http_Error err http.StatusInternalServerError w) a
      | None =>
          if n =? 0 then
            let a := emit segment_Delete a in
            returned (Fprintln "No records" w) a
          else
            let a := emit (segment_Close low high) a in
            match Close env low high with
            | Some err => returned (http_Error err http.StatusInternalServerError w) a
            | None =>
                let a := replicatedSegments_Inc a in
                if n <? 0 then mkExec (Panicked counter_panic) w a
                else
                  let a := replicatedBytes_Add n a in
                  returned (Fprintln "OK" w) a
            end
      end
  end in
(* defer r.Body.Close() *)
mkExec (out x) (rw x) (emit Body_Close (api x)).

(** ** handleClusterState (api.go, lines 320-328) *)

Definition handleClusterState (env : Env) (a : API) (w : writer) (r : Request)
  : exec :=
let a := emit peer_State a in
match State env with
| inl err => returned (http_Error err http.StatusInternalServerError w) a
| inr buf =>
    let w := rw_Header_Set "Content-Type" "application/json; charset=utf-8" w in
    returned (rw_Write buf w) a
end.

(** ** ServeHTTP (api.go, lines 63-98) *)

Definition set_Path (p : string) (r : Request) : Request :=
mkRequest (Method r)
          (mkURL (Scheme (R_URL r)) (Host (R_URL r)) p (RawQuery (R_URL r))
                 (ForceQuery (R_URL r)))
          (R_Body r).

(** The [code] field of the [interceptingWriter] behind [w]. *)
Definition iw_code (w : writer) : Z :=
match w with
| Intercepting iw => code iw
| Direct _ => http.StatusOK
end.

(** The switch of lines 74-97: the request as the chosen branch leaves it,
    and the run of the branch. *)
Definition route (env : Env) (a : API) (w : writer) (r : Request)
  : Request * exec :=
let method := Method r in
let path := Path (R_URL r) in
if ((method =? "GET") && (path =? "/"))%string then
  let r := set_Path APIPathUserQuery r in
  (r, returned
        (http_Redirect (URL_String (R_URL r)) http.StatusTemporaryRedirect w) a)
else if ((method =? "GET") && (path =? APIPathUserQuery))%string then
  (r, handleUserQuery env a w r false)
else if ((method =? "HEAD") && (path =? APIPathUserQuery))%string then
  (r, handleUserQuery env a w r true)
else if ((method =? "GET") && (path =? APIPathInternalQuery))%string then
  (r, handleInternalQuery env a w r false)
else if ((method =? "HEAD") && (path =? APIPathInternalQuery))%string then
  (r, handleInternalQuery env a w r true)
else if ((method =? "GET") && (path =? APIPathUserStream))%string then
  (r, handleUserStream env a w r)
else if ((method =? "GET") && (path =? APIPathInternalStream))%string then
  (r, handleInternalStream env a w r)
else if ((method =? "POST") && (path =? APIPathReplicate))%string then
  (r, handleReplicate env a w r)
else if ((method =? "GET") && (path =? APIPathClusterState))%string then
  (r, handleClusterState env a w r)
else
  (r, returned (http_NotFound w) a).

(** [ServeHTTP]: the handlers get the writer wrapped in an
    [interceptingWriter] that starts at 200; the deferred function runs
    when the switch returns or panics and reads [r.Method], [r.URL.Path]
    and [iw.code] at that moment. *)
Definition ServeHTTP (env : Env) (a : API) (w : http.conn) (r : Request)
  : Request * exec :=
let iw := mkIW http.StatusOK w in
let (r, x) := route env a (Intercepting iw) r in
match out x with
| Blocked => (r, x)
| _ =>
    (r, mkExec (out x) (rw x)
               (Observe (Method r) (Path (R_URL r)) (iw_code (rw x)) (api x)))
end.

End Handlers.

(** ** A store to run the handlers on *)

(** The parameters of [Store] stand for code outside [api.go].  To run
    the handlers on concrete requests they are given simple stand-ins
    here, which follow the specification's description of them. *)

Module Model.

(** [strconv.Itoa] *)
Definition Itoa (z : Z) : string := NilZero.string_of_int (Z.to_int z).

(** The text before the first [c], and the text after it when there is
    one. *)
Fixpoint cut (c : ascii) (s : string) : string * option string :=
match s with
| EmptyString => (EmptyString, None)
| String a t =>
    if Ascii.eqb a c then (EmptyString, Some t)
    else let (h, r) := cut c t in (String a h, r)
end.

Fixpoint split_on (c : ascii) (s : string) : list string :=
match s with
| EmptyString => [EmptyString]
| String a t =>
    if Ascii.eqb a c then EmptyString :: split_on c t
    else match split_on c t with
         | h :: r => String a h :: r
         | [] => [String a EmptyString]
         end
end.

Definition contains (c : ascii) (s : string) : bool :=
match snd (cut c s) with Some _ => true | None => false end.

(** [url.Values], for keys with one value and text without escapes. *)
Definition Values : Type := list (string * string).

Definition Values_Get (k : string) (v : Values) : option string :=
match find (fun kv => (fst kv =? k)%string) v with
| Some kv => Some (snd kv)
| None => None
end.

Definition Values_Set (k x : string) (v : Values) : Values :=
(k, x) :: filter (fun kv => negb (fst kv =? k)%string) v.

Definition ParseQuery (raw : string) : Values :=
if (raw =? "")%string then []
else map (fun kv => let (k, x) := cut "=" kv in
                    (k, match x with Some x => x | None => "" end))
         (split_on "&" raw).

(** [url.Parse] on the two shapes this API meets: [scheme://host/path?query]
    and [/path?query]; a host with a space in it is refused. *)
Definition url_Parse (s : string) : error + URL :=
let (front, query) := cut "?" s in
let force := match query with Some EmptyString => true | _ => false end in
let query := match query with Some q => q | None => "" end in
match front with
| String "/" _ => inr (mkURL "" "" front query force)
| _ =>
    match cut ":" front with
    | (scheme, Some (String "/" (String "/" rest))) =>
        let (host, path) := cut "/" rest in
        let path := match path with Some p => String "/" p | None => "" end in
        if contains " " host then
          inl ("parse " ++ s ++ ": invalid character in host name")
        else inr (mkURL scheme host path query force)
    | _ => inl ("parse " ++ s ++ ": invalid URI for request")
    end
end.

(** Modelled from the spec: [QueryParams] of query.go, which is not part
    of the sources at hand, "an immutable, URL-query-encodable value
    describing a log query (filter predicate(s), time/key bounds ...)". *)
Record QueryParams : Type := mkQueryParams {
From : string;
To : string;
Q : string
}.

Definition QueryParams_eqb (a b : QueryParams) : bool :=
((From a =? From b) && (To a =? To b) && (Q a =? Q b))%string.

Definition all_digits (s : string) : bool :=
forallb (fun c => let n := nat_of_ascii c in ((48 <=? n) && (n <=? 57))%nat)
        (list_ascii_of_string s).

Definition get_or (k : string) (v : Values) : string :=
match Values_Get k v with Some x => x | None => "" end.

(** Modelled from the spec: [MakeQueryParams] of query.go; malformed
    parameters, here bounds that are not numbers, are a client error. *)
Definition MakeQueryParams (v : Values) : error + QueryParams :=
if negb (all_digits (get_or "from" v)) then inl "parsing 'from': not a time"
else if negb (all_digits (get_or "to" v)) then inl "parsing 'to': not a time"
else inr (mkQueryParams (get_or "from" v) (get_or "to" v) (get_or "q" v)).

(** Modelled from the spec: [QueryParams.EncodeTo] of query.go, the
    URL-query encoding that [MakeQueryParams] reads back. *)
Definition EncodeTo (qp : QueryParams) (v : Values) : Values :=
Values_Set "q" (Q qp) (Values_Set "to" (To qp) (Values_Set "from" (From qp) v)).

(** The rest of a query result: the count of what matched. *)
Definition Stats : Type := Z.

Definition Result : Type := QueryResult QueryParams Stats.

(** Modelled from the spec: [QueryResult.Merge] of query.go, which is not
    part of the sources at hand.  "Merge(a, b) is associative and
    commutative over the error-count and matched-record totals"; it
    "fails if b is structurally incompatible with a (e.g., mismatched
    params)". *)
Definition Merge (qr other : Result) : error + Result :=
if QueryParams_eqb (Params qr) (Params other) then
  inr (mkQueryResult (Params qr)
                     (wrap_int (ErrorCount qr + ErrorCount other))
                     (Duration qr)
                     (Rest qr + Rest other))
else inl "mismatched params".

(** Modelled from the spec: [QueryResult.EncodeTo] of query.go; the
    counts and the duration go out as headers, the matches as the body. *)
Definition QueryResult_EncodeTo (qr : Result) : list wcall :=
[ call_Set "X-Oklog-Error-Count" (Itoa (ErrorCount qr));
  call_Set "X-Oklog-Duration" (Duration qr);
  call_Write (Itoa (Rest qr) ++ nl) ].

(** The answer of a peer: its status, its body, and the result that
    [DecodeFrom] reads from it. *)
Record Response : Type := mkPeerResponse {
StatusCode : Z;
Body : Reader;
decoded : Result
}.

(** A record key. *)
Definition ULID : Type := string.

Definition key_min (a b : ULID) : ULID := if String.leb a b then a else b.
Definition key_max (a b : ULID) : ULID := if String.leb a b then b else a.

(** Modelled from the spec: [mergeRecords], which is not part of the
    sources at hand.  The stream is a sequence of lines, each a key, a
    space and a payload; [low] and [high] are the least and the greatest
    key seen and [n] counts the records; a line without a key fails the
    decoding, and so does a stream that ends in an error. *)
Fixpoint merge_lines (lines : list string) (low high : ULID) (n : Z)
  : ULID * ULID * Z * option error :=
match lines with
| [] => (low, high, n, None)
| line :: rest =>
    if (line =? "")%string then merge_lines rest low high n
    else match cut " " line with
         | (key, Some _) =>
             if (n =? 0) then merge_lines rest key key 1
             else merge_lines rest (key_min low key) (key_max high key) (n + 1)
         | (_, None) => (low, high, n, Some "short record")
         end
end.

Definition mergeRecords (r : Reader) : ULID * ULID * Z * option error :=
match merge_lines (split_on (ascii_of_nat 10) (content r)) "" "" 0 with
| (low, high, n, None) => (low, high, n, failure r)
| stopped => stopped
end.

Definition mergeRecords_written (r : Reader) : string := content r.

#[export] Instance store : Store :=
Build_Store Values ParseQuery url_Parse
            QueryParams MakeQueryParams EncodeTo
            Stats 0 Merge QueryResult_EncodeTo
            Response StatusCode Body decoded
            ULID mergeRecords mergeRecords_written.

End Model.

(** ** Sample requests and environments *)

Module Sample.

Import Model.

(** The writer of the standard server: it can flush. *)
Definition std_conn : http.conn :=
http.mkConn [http.Header_m; http.Write_m; http.WriteHeader_m; http.Flush_m]
            http.fresh_response.

Definition api0 : API := mkAPI [] 0 0 [] [] [].

Definition request (method path raw body : string) : Request :=
mkRequest method (mkURL "" "" path raw false) (mkReader body None).

Definition params (q : string) : QueryParams := mkQueryParams "1" "2" q.

Definition partial (q : string) (errors matched : Z) : Result :=
mkQueryResult (params q) errors "1ms" matched.

Definition ok_response (qr : Result) : Response :=
mkPeerResponse http.StatusOK (mkReader "" None) qr.

Definition bad_response (c : Z) (msg : string) : Response :=
mkPeerResponse c (mkReader msg None) (mkQueryResult (params "") 0 "" 0).

(** A cluster of three store peers answering a query for [foo]: the
    first answers, the second cannot be reached, the third answers 500. *)
Definition three_peers (req : Request) : response :=
if (Host (R_URL req) =? "10.0.0.1:7650")%string then
  answered (ok_response (partial "foo" 0 5))
else if (Host (R_URL req) =? "10.0.0.2:7650")%string then
  failed "dial tcp 10.0.0.2:7650: connection refused"
else answered (bad_response 500 "boom").

Definition env0 : Env :=
mkEnv ["10.0.0.1:7650"; "10.0.0.2:7650"; "10.0.0.3:7650"]
      three_peers [2%nat; 0%nat] "3ms"
      (fun q _ => inr (mkQueryResult q 0 "1ms" 7))
      None (fun _ _ => None)
      [record_in "a"; record_in "b"; ctx_Done]
      (inr "{}").

Definition with_members (m : list string) (e : Env) : Env :=
mkEnv m (Do e) (arrival e) (since e) (Query e) (Create e) (Close e)
      (selects e) (State e).

Definition with_Do (d : Request -> response) (e : Env) : Env :=
mkEnv (members e) d (arrival e) (since e) (Query e) (Create e) (Close e)
      (selects e) (State e).

Definition with_Close (c : ULID -> ULID -> option error) (e : Env) : Env :=
mkEnv (members e) (Do e) (arrival e) (since e) (Query e) (Create e) c
      (selects e) (State e).

(** The writer as [ServeHTTP] hands it to the handlers. *)
Definition w0 : writer := Intercepting (mkIW http.StatusOK std_conn).

(** Three pushes: two records; one record and a line cut short; nothing. *)
Definition good_push : Request :=
request "POST" "/replicate" "" ("01B a" ++ nl ++ "01A b" ++ nl).

Definition bad_push : Request :=
request "POST" "/replicate" "" ("01B a" ++ nl ++ "01A").

Definition empty_push : Request := request "POST" "/replicate" "" "".

(** A query for [foo], and one with a bound that is not a time. *)
Definition query_foo : Request := request "GET" "/query" "from=1&to=2&q=foo" "".

Definition query_malformed : Request := request "GET" "/query" "from=x" "".

Definition stream_foo : Request := request "GET" "/stream" "from=1&to=2&q=foo" "".

(** One store peer; it answers 200, with a result for [q] that carries
    [errors] errors of its own and [matched] matches. *)
Definition one_peer (q : string) (errors matched : Z) : Env :=
with_members ["10.0.0.1:7650"]
  (with_Do (fun _ => answered (ok_response (partial q errors matched))) env0).

(** The request that the node builds for its one peer. *)
Definition peer_request : Request :=
mkRequest "GET" (mkURL "http" "10.0.0.1:7650" "/store/_query" "" false)
          (mkReader "" None).

End Sample.

(** ** The words of the specification about the gather *)

Section GatherSpec.

Context {store : Store}.

(** A peer request succeeds when it ends without a transport error and
    with status 200. *)
Definition succeeded (x : response) : bool :=
match x with
| failed _ => false
| answered resp => StatusCode resp =? http.StatusOK
end.

(** K: how many of the outcomes are failures. *)
Definition count_failures (responses : list response) : nat :=
length (filter (fun x => negb (succeeded x)) responses).

(** The partial results of the successes, in arrival order. *)
Fixpoint partials (responses : list response) : list Result :=
match responses with
| [] => []
| failed _ :: rest => partials rest
| answered resp :: rest =>
    if StatusCode resp =? http.StatusOK then DecodeFrom resp :: partials rest
    else partials rest
end.

(** The fold of [Merge] over partial results. *)
Fixpoint merge_all (ps : list Result) (acc : Result) : error + Result :=
match ps with
| [] => inr acc
| p :: ps =>
    match Merge acc p with
    | inl err => inl err
    | inr acc => merge_all ps acc
    end
end.

(** The error counts that the partial results carry themselves. *)
Definition sum_errors (ps : list Result) : Z :=
fold_right (fun p s => ErrorCount p + s) 0 ps.

(** The empty aggregate of line 166. *)
Definition aggregate0 (query : QueryParams) : Result :=
mkQueryResult query 0 "" zero_Stats.

(** [Merge] takes the error count of its receiver as a count: one more
    error in the receiver is one more error in the merged result, and
    changes nothing else of it. *)
Definition Merge_counts_receiver : Prop :=
  forall a b,
    Merge (ErrorCount_incr a) b =
    match Merge a b with
    | inl err => inl err
    | inr m => inr (ErrorCount_incr m)
    end.

(** [Merge] adds up the error counts of its two arguments. *)
Definition Merge_adds_errors : Prop :=
  forall a b m,
    Merge a b = inr m -> ErrorCount m = wrap_int (ErrorCount a + ErrorCount b).

(** A failure in the words of the claim and of the specification: a
    transport error, or a status that is not a success status, that is
    not one from 200 to 299. *)
Definition claimed_failure (x : response) : bool :=
match x with
| failed _ => true
| answered resp =>
    negb ((http.StatusOK <=? StatusCode resp) && (StatusCode resp <? 300))
end.

(** The partial results carry no error count of their own, as the
    results of a local query do. *)
Definition no_own_errors (ps : list Result) : Prop :=
Forall (fun p => ErrorCount p = 0) ps.

End GatherSpec.

(** ** The words of the specification about routes and URLs *)

Section RouteSpec.

Context {store : Store}.

(** The requests of the request loop, or the error that stopped it. *)
Definition built (x : (error * API) + (list Request * API))
  : error + list Request :=
match x with
| inl (err, _) => inl err
| inr (requests, _) => inr requests
end.

(** The parameters a peer reads from a request of the fan-out, as
    [handleInternalQuery] and [handleInternalStream] do. *)
Definition peer_decodes (req : Request) : error + QueryParams :=
MakeQueryParams (URL_Query (R_URL req)).

(** The path label of the sample that [ServeHTTP] records, which is
    [r.URL.Path] as the switch leaves it. *)
Definition observed_path (r : Request) : string :=
if ((Method r =? "GET") && (Path (R_URL r) =? "/"))%string
then APIPathUserQuery else Path (R_URL r).

Definition is_intercepting (w : writer) : bool :=
match w with
| Intercepting _ => true
| Direct _ => false
end.

(** What every handler keeps when it is given the intercepting writer:
    it does not wait forever, the writer stays the intercepting one, and
    the histogram is left to [ServeHTTP]. *)
Definition handled (a : API) (x : exec) : Prop :=
out x <> Blocked /\ is_intercepting (rw x) = true /\ duration (api x) = duration a.

End RouteSpec.

(** ** Notions for the properties of the whole file *)

Section FileSpec.

Context {store : Store}.

(** The pairs of method and path that the switch of [ServeHTTP] names. *)
Definition routes : list (string * string) :=
[ ("GET", "/");
  ("GET", APIPathUserQuery); ("HEAD", APIPathUserQuery);
  ("GET", APIPathInternalQuery); ("HEAD", APIPathInternalQuery);
  ("GET", APIPathUserStream); ("GET", APIPathInternalStream);
  ("POST", APIPathReplicate);
  ("GET", APIPathClusterState) ].

(** The requests handed to goroutines, among some calls. *)
Fixpoint dispatched (l : list Event) : list Request :=
match l with
| [] => []
| go_Do req :: l => req :: dispatched l
| _ :: l => dispatched l
end.




(** The code that the intercepting writer holds after some calls: that
    of the last [WriteHeader], or the one it held before. *)
Fixpoint last_WriteHeader (cs : list wcall) (c0 : Z) : Z :=
match cs with
| [] => c0
| call_WriteHeader c :: cs => last_WriteHeader cs c
| _ :: cs => last_WriteHeader cs c0
end.

(** The status that goes out with some calls on a connection that has
    sent nothing yet: that of the first [WriteHeader], or 200 when a
    [Write] comes first. *)
Fixpoint first_status (cs : list wcall) : option Z :=
match cs with
| [] => None
| call_Set _ _ :: cs => first_status cs
| call_WriteHeader c :: _ => Some c
| call_Write _ :: _ => Some http.StatusOK
end.

(** A final status code: 101, or one from 200 to 999.  The server takes
    the first such code as the status of the response. *)
Definition final_code (c : Z) : bool :=
(c =? 101) || ((200 <=? c) && (c <=? 999)).

(** Calls whose [WriteHeader]s all pass a final status code. *)
Definition final_codes (cs : list wcall) : bool :=
forallb (fun c => match c with call_WriteHeader c => final_code c | _ => true end) cs.

Definition no_WriteHeader (cs : list wcall) : bool :=
forallb (fun c => match c with call_WriteHeader _ => false | _ => true end) cs.

(** Calls that set the status at most once, and before any write. *)
Fixpoint header_first (cs : list wcall) : bool :=
match cs with
| [] => true
| call_Set _ _ :: cs => header_first cs
| call_WriteHeader _ :: cs => no_WriteHeader cs
| call_Write _ :: cs => no_WriteHeader cs
end.

(** The writer as [ServeHTTP] makes it, on a connection that has sent
    nothing. *)
Definition fresh (w : writer) : Prop :=
is_intercepting w = true /\ http.status (sent w) = None /\
iw_code w = http.StatusOK.

(** The code held by the intercepting writer is the status of the
    response: the one sent, or the 200 that the server sends for a
    handler that wrote nothing. *)
Definition agree (w : writer) : Prop :=
iw_code w = match http.status (sent w) with
            | Some s => s
            | None => http.StatusOK
            end.

(** One request of the fan-out for the member [hostport]. *)
Definition request_for (method hostport : string) (req : Request) : Prop :=
exists u,
  url_Parse ("http://" ++ hostport ++ "/store" ++ APIPathInternalQuery) = inr u /\
  http_NewRequest method (URL_String u) = inr req.

(** The aggregate when every peer has failed. *)
Definition all_failed (query : QueryParams) (n : nat) (d : string) : Result :=
mkQueryResult query (wrap_int (Z.of_nat n)) d zero_Stats.

End FileSpec.

(** More sample requests and environments. *)

Module Sample2.

Import Model Sample.


Definition with_Create (c : option error) (e : Env) : Env :=
mkEnv (members e) (Do e) (arrival e) (since e) (Query e) c (Close e)
      (selects e) (State e).

Definition with_Query (q : QueryParams -> bool -> error + Result) (e : Env) : Env :=
mkEnv (members e) (Do e) (arrival e) (since e) q (Create e) (Close e)
      (selects e) (State e).

Definition with_State (s : error + string) (e : Env) : Env :=
mkEnv (members e) (Do e) (arrival e) (since e) (Query e) (Create e) (Close e)
      (selects e) s.


Definition internal_query_foo : Request :=
request "GET" "/_query" "from=1&to=2&q=foo" "".


Definition stream_malformed : Request := request "GET" "/stream" "to=y" "".

Definition delete_query : Request := request "DELETE" "/query" "q=foo" "".


(** A member whose address has a space in it, which [url.Parse] refuses,
    after one whose address is fine. *)
Definition bad_member : Env :=
with_members ["10.0.0.1:7650"; "10.0.0.2 :7650"] env0.

(** Every peer out of reach. *)
Definition all_down : Env :=
with_Do (fun _ => failed "dial tcp: connection refused") env0.

(** One store peer, which answers 204 No Content to the query for
    [foo]; what it sends decodes to a result with five matches and no
    errors. *)
Definition peer_204 : Env :=
with_members ["10.0.0.1:7650"]
  (with_Do (fun _ => answered (mkPeerResponse 204 (mkReader "" None)
                                 (partial "foo" 0 5))) env0).

End Sample2.

(** * Properties *)

(** ** Go integers *)

Lemma wrap_int_id z : in_int z -> wrap_int z = z.
Proof.
unfold in_int, int_min, int_max, wrap_int; intros H.
rewrite Z.mod_small; lia.
Qed.

Lemma wrap_int_range z : in_int (wrap_int z).
Proof.
unfold in_int, int_min, int_max, wrap_int.
pose proof (Z.mod_pos_bound (z + 2 ^ 63) (2 ^ 64) ltac:(lia)); lia.
Qed.

Lemma wrap_int_add_l a b : wrap_int (wrap_int a + b) = wrap_int (a + b).
Proof.
unfold wrap_int.
replace ((a + 2 ^ 63) mod 2 ^ 64 - 2 ^ 63 + b + 2 ^ 63)
  with ((a + 2 ^ 63) mod 2 ^ 64 + b) by lia.
replace (a + b + 2 ^ 63) with ((a + 2 ^ 63) + b) by lia.
rewrite Zplus_mod_idemp_l; reflexivity.
Qed.

Lemma wrap_int_add_r a b : wrap_int (a + wrap_int b) = wrap_int (a + b).
Proof. rewrite (Z.add_comm a), wrap_int_add_l; f_equal; lia. Qed.

(** ** Response writers *)

Lemma http_Error_status msg c w :
  http.status (sent w) = None ->
  http.status (sent (http_Error msg c w)) = Some c.
Proof.
intros H; destruct w as [cn | iw]; unfold sent in *; simpl in *;
  unfold http.conn_Write, http.conn_WriteHeader; simpl; rewrite H; reflexivity.
Qed.

Lemma http_Error_flushes msg c w :
  http.flushes (sent (http_Error msg c w)) = http.flushes (sent w).
Proof.
destruct w as [[ms [h st b f]] | [c0 [ms [h st b f]]]]; destruct st; reflexivity.
Qed.

Lemma http_Error_code msg c iw :
  iw_code (http_Error msg c (Intercepting iw)) = c.
Proof. reflexivity. Qed.

Lemma Fprintln_status s w :
  http.status (sent w) = None ->
  http.status (sent (Fprintln s w)) = Some http.StatusOK.
Proof.
intros H; destruct w as [cn | iw]; unfold sent in *; simpl in *;
  unfold http.conn_Write, http.conn_WriteHeader; simpl; rewrite H; reflexivity.
Qed.

Lemma Fprintln_body s w :
  http.body (sent (Fprintln s w)) = (http.body (sent w) ++ s ++ nl)%string.
Proof.
destruct w as [[ms [h st b f]] | [c0 [ms [h st b f]]]]; destruct st; reflexivity.
Qed.

Lemma http_Error_body msg c w :
  http.body (sent (http_Error msg c w)) = (http.body (sent w) ++ msg ++ nl)%string.
Proof.
destruct w as [[ms [h st b f]] | [c0 [ms [h st b f]]]]; destruct st; reflexivity.
Qed.

Lemma Fprintln_code s iw : iw_code (Fprintln s (Intercepting iw)) = code iw.
Proof. reflexivity. Qed.

Section Replicate.

Context {store : Store}.

Ltac calls_norm := cbn [api calls emit out rw returned replicatedSegments
  replicatedBytes replicatedSegments_Inc replicatedBytes_Add];
  rewrite <- ?app_assoc; cbn [app].

(** C1. Replication is atomic on failure: when a segment was created and
    decoding or appending then fails, [handleReplicate] deletes the
    segment, answers 500 with the error, and makes no [Close] call; the
    two counters stay as they were. *)
Theorem handleReplicate_failure_discards
  (env : Env) (a : API) (w : writer) (r : Request)
  (low high : ULID) (n : Z) (err : error) :
  Create env = None ->
  mergeRecords (R_Body r) = (low, high, n, Some err) ->
  let x := handleReplicate env a w r in
  out x = Returned /\
  rw x = http_Error err http.StatusInternalServerError w /\
  (http.status (sent w) = None ->
   http.status (sent (rw x)) = Some http.StatusInternalServerError) /\
  calls (api x) =
    (calls a ++ [log_Create; segment_Write (mergeRecords_written (R_Body r));
                segment_Delete; Body_Close])%list /\
  (forall lo hi, In (segment_Close lo hi) (calls (api x)) ->
                 In (segment_Close lo hi) (calls a)) /\
  replicatedSegments (api x) = replicatedSegments a /\
  replicatedBytes (api x) = replicatedBytes a.
Proof.
intros HC HM x; subst x; unfold handleReplicate; rewrite HC, HM.
calls_norm.
repeat apply conj; try reflexivity.
- apply http_Error_status.
- intros lo hi Hin; apply in_app_or in Hin as [Hin | Hin]; [exact Hin |].
  simpl in Hin; decompose [or] Hin; try discriminate; contradiction.
Qed.

(** C7. An empty push is a no-op: when the body yields no record and no
    error, [handleReplicate] deletes the segment it created, makes no
    [Close] call, writes the line "No records" to the response under
    status 200, and leaves both counters as they were. *)
Theorem handleReplicate_empty_push
  (env : Env) (a : API) (w : writer) (r : Request) (low high : ULID) :
  Create env = None ->
  mergeRecords (R_Body r) = (low, high, 0, None) ->
  let x := handleReplicate env a w r in
  out x = Returned /\
  rw x = Fprintln "No records" w /\
  http.body (sent (rw x)) = (http.body (sent w) ++ "No records" ++ nl)%string /\
  (http.status (sent w) = None ->
   http.status (sent (rw x)) = Some http.StatusOK) /\
  (forall iw, w = Intercepting iw -> iw_code (rw x) = code iw) /\
  calls (api x) =
    (calls a ++ [log_Create; segment_Write (mergeRecords_written (R_Body r));
                segment_Delete; Body_Close])%list /\
  (forall lo hi, In (segment_Close lo hi) (calls (api x)) ->
                 In (segment_Close lo hi) (calls a)) /\
  replicatedSegments (api x) = replicatedSegments a /\
  replicatedBytes (api x) = replicatedBytes a.
Proof.
intros HC HM x; subst x; unfold handleReplicate; rewrite HC, HM.
change (0 =? 0) with true; cbv iota.
calls_norm.
repeat apply conj; try reflexivity.
- apply Fprintln_body.
- apply Fprintln_status.
- intros iw ->; reflexivity.
- intros lo hi Hin; apply in_app_or in Hin as [Hin | Hin]; [exact Hin |].
  simpl in Hin; decompose [or] Hin; try discriminate; contradiction.
Qed.

(** C8. The success path: with [n > 0] records and no error the segment
    is committed by [Close(low, high)] with the watermarks that
    [mergeRecords] returned.  When [Close] succeeds the segments counter
    grows by one, the bytes counter by [n], and the line "OK" is written
    to the response under status 200; when [Close] fails the answer is
    500 with the error as its text, the segment is not deleted and the
    counters stay as they were. *)
Theorem handleReplicate_commit
  (env : Env) (a : API) (w : writer) (r : Request)
  (low high : ULID) (n : Z) :
  Create env = None ->
  mergeRecords (R_Body r) = (low, high, n, None) ->
  0 < n ->
  let x := handleReplicate env a w r in
  out x = Returned /\
  calls (api x) =
    (calls a ++ [log_Create; segment_Write (mergeRecords_written (R_Body r));
                segment_Close low high; Body_Close])%list /\
  match Close env low high with
  | None =>
      rw x = Fprintln "OK" w /\
      http.body (sent (rw x)) = (http.body (sent w) ++ "OK" ++ nl)%string /\
      (http.status (sent w) = None ->
       http.status (sent (rw x)) = Some http.StatusOK) /\
      replicatedSegments (api x) = replicatedSegments a + 1 /\
      replicatedBytes (api x) = replicatedBytes a + n
  | Some err =>
      rw x = http_Error err http.StatusInternalServerError w /\
      http.body (sent (rw x)) = (http.body (sent w) ++ err ++ nl)%string /\
      (http.status (sent w) = None ->
       http.status (sent (rw x)) = Some http.StatusInternalServerError) /\
      (In segment_Delete (calls (api x)) -> In segment_Delete (calls a)) /\
      replicatedSegments (api x) = replicatedSegments a /\
      replicatedBytes (api x) = replicatedBytes a
  end.
Proof.
intros HC HM Hn x; subst x; unfold handleReplicate; rewrite HC, HM.
destruct (Z.eqb_spec n 0) as [-> | _]; [lia |].
destruct (Close env low high) as [err |].
- calls_norm. repeat apply conj; try reflexivity.
  + apply http_Error_body.
  + apply http_Error_status.
  + intros Hin; apply in_app_or in Hin as [Hin | Hin]; [exact Hin |].
    simpl in Hin; decompose [or] Hin; try discriminate; contradiction.
- destruct (Z.ltb_spec n 0) as [Hneg | _]; [lia |].
  calls_norm. repeat apply conj; try reflexivity.
  + apply Fprintln_body.
  + apply Fprintln_status.
Qed.

End Replicate.

(** ** The channel of the gather *)

Lemma take_nth_perm {A : Type} (i : nat) (l : list A) x rest :
  take_nth i l = Some (x, rest) -> Permutation l (x :: rest).
Proof.
revert i x rest; induction l as [| y t IH]; intros i x rest H; simpl in H.
- discriminate.
- destruct i as [| j].
  + injection H as <- <-. apply Permutation_refl.
  + destruct (take_nth j t) as [[z t'] |] eqn:E; [| discriminate].
    injection H as <- <-.
    apply perm_trans with (y :: z :: t').
    * apply perm_skip, (IH j); exact E.
    * apply perm_swap.
Qed.

Lemma take_nth_some {A : Type} (i : nat) (l : list A) :
  (i < length l)%nat -> exists x rest, take_nth i l = Some (x, rest).
Proof.
revert i; induction l as [| y t IH]; intros i H; simpl in *.
- lia.
- destruct i as [| j]; [eauto |].
  destruct (IH j) as (x & rest & E); [lia |].
  rewrite E; eauto.
Qed.

(** Every outcome sent on the channel is received, once. *)
Lemma receive_perm {A : Type} (picks : list nat) (pending : list A) :
  Permutation (receive (length pending) picks pending) pending.
Proof.
remember (length pending) as k eqn:Hk.
revert picks pending Hk; induction k as [| k IH]; intros picks pending Hk.
- destruct pending; [apply Permutation_refl | discriminate].
- cbn [receive].
  set (i := match picks with [] => O | p :: _ => Nat.modulo p (length pending) end).
  assert (Hi : (i < length pending)%nat).
  { subst i; destruct picks as [| p ps]; [lia |].
    apply Nat.mod_upper_bound; lia. }
  destruct (take_nth_some i pending Hi) as (x & rest & E); rewrite E.
  pose proof (take_nth_perm _ _ _ _ E) as HP.
  assert (Hlen : k = length rest).
  { apply Permutation_length in HP; simpl in HP; lia. }
  apply perm_trans with (x :: rest); [| apply Permutation_sym; exact HP].
  apply perm_skip, IH; exact Hlen.
Qed.

Section UserQuery.

Context {store : Store}.

(** The request loop only fills maps that are then dropped; it builds one
    request per member. *)
Lemma build_requests_inr query method members requests a requests' a' :
  build_requests query method members requests a = inr (requests', a') ->
  length requests' = (length requests + length members)%nat /\
  calls a' = calls a /\ logger a' = logger a /\ duration a' = duration a.
Proof.
revert requests a; induction members as [| hostport rest IH];
  intros requests a H; simpl in H.
- injection H as <- <-. repeat apply conj; try reflexivity. simpl; lia.
- destruct (url_Parse _) as [err | u]; [discriminate |].
  destruct (http_NewRequest _ _) as [err | req]; [discriminate |].
  apply IH in H as (Hl & Hc & Hg & Hd).
  rewrite Hl, Hc, Hg, Hd, length_app; simpl.
  repeat apply conj; try reflexivity. simpl; lia.
Qed.

Lemma build_requests_inl query method members requests a err a' :
  build_requests query method members requests a = inl (err, a') ->
  calls a' = calls a /\ logger a' = logger a /\ duration a' = duration a.
Proof.
revert requests a; induction members as [| hostport rest IH];
  intros requests a H; simpl in H.
- discriminate.
- destruct (url_Parse _) as [e | u].
  { injection H as <- <-. repeat apply conj; reflexivity. }
  destruct (http_NewRequest _ _) as [e | req].
  { injection H as <- <-. repeat apply conj; reflexivity. }
  apply IH in H as (Hc & Hg & Hd).
  rewrite Hc, Hg, Hd. repeat apply conj; reflexivity.
Qed.

(** The gather of a list in two parts. *)
Lemma gather_app pre post result a :
  gather (pre ++ post) result a =
  match gather pre result a with
  | inl stop => inl stop
  | inr (result', a') => gather post result' a'
  end.
Proof.
revert result a; induction pre as [| x pre IH]; intros result a; simpl.
- reflexivity.
- destruct x as [err | resp].
  + apply IH.
  + destruct (negb _); [apply IH |].
    destruct (Merge _ _) as [err | m]; [reflexivity | apply IH].
Qed.

(** The gather touches nothing of the [API] value but the logger. *)
Lemma gather_api responses result a :
  match gather responses result a with
  | inl (_, a') | inr (_, a') =>
      calls a' = calls a /\ duration a' = duration a /\
      replicatedSegments a' = replicatedSegments a /\
      replicatedBytes a' = replicatedBytes a
  end.
Proof.
revert result a; induction responses as [| x rest IH]; intros result a; simpl.
- repeat apply conj; reflexivity.
- destruct x as [err | resp].
  + specialize (IH (ErrorCount_incr result) (Log (gather_err err) a)).
    destruct (gather rest _ _) as [[e a'] | [m a']]; exact IH.
  + destruct (negb _).
    * specialize (IH (ErrorCount_incr result) (Log (status_line resp) a)).
      destruct (gather rest _ _) as [[e a'] | [m a']]; exact IH.
    * destruct (Merge _ _) as [err | m].
      { repeat apply conj; reflexivity. }
      apply IH.
Qed.

(** C3. Empty-directory rejection: with an empty snapshot of the store
    peers [handleUserQuery] answers 503 and stops; besides asking the peer
    for the snapshot it calls nothing, so no peer request is dispatched. *)
Theorem handleUserQuery_no_peers
  (env : Env) (a : API) (w : writer) (r : Request) (statsOnly : bool) :
  members env = [] ->
  let x := handleUserQuery env a w r statsOnly in
  out x = Returned /\
  rw x = http_Error "no store nodes available" http.StatusServiceUnavailable w /\
  (http.status (sent w) = None ->
   http.status (sent (rw x)) = Some http.StatusServiceUnavailable) /\
  calls (api x) = (calls a ++ [peer_Current])%list /\
  (forall req, In (go_Do req) (calls (api x)) -> In (go_Do req) (calls a)).
Proof.
intros Hm x; subst x; unfold handleUserQuery; rewrite Hm; simpl.
repeat apply conj; try reflexivity.
- apply http_Error_status.
- intros req Hin; apply in_app_or in Hin as [Hin | Hin]; [exact Hin |].
  simpl in Hin; decompose [or] Hin; try discriminate; contradiction.
Qed.

(** C10. On the user query route the check of the peers comes before the
    parsing of the parameters: a GET or HEAD of [/query] with an empty
    snapshot is answered 503 whatever the parameters are, and
    [MakeQueryParams] is not called. *)
Theorem ServeHTTP_query_unavailable_first
  (env : Env) (a : API) (w : http.conn) (r : Request) :
  Method r = "GET" \/ Method r = "HEAD" ->
  Path (R_URL r) = APIPathUserQuery ->
  members env = [] ->
  let x := snd (ServeHTTP env a w r) in
  out x = Returned /\
  rw x = http_Error "no store nodes available" http.StatusServiceUnavailable
                    (Intercepting (mkIW http.StatusOK w)) /\
  (http.status (http.conn_resp w) = None ->
   http.status (sent (rw x)) = Some http.StatusServiceUnavailable) /\
  iw_code (rw x) = http.StatusServiceUnavailable /\
  calls (api x) = (calls a ++ [peer_Current])%list /\
  (forall v, In (call_MakeQueryParams v) (calls (api x)) ->
             In (call_MakeQueryParams v) (calls a)) /\
  duration (api x) =
    (duration a ++ [(Method r, APIPathUserQuery, http.StatusServiceUnavailable)])%list.
Proof.
intros Hmeth Hpath Hm x; subst x.
unfold ServeHTTP, route. rewrite Hpath.
destruct Hmeth as [Hg | Hg]; rewrite Hg;
  cbn [String.eqb Ascii.eqb Bool.eqb andb APIPathUserQuery APIPathInternalQuery];
  unfold handleUserQuery; rewrite Hm;
  cbn [length Nat.leb returned snd out rw api].
all: repeat apply conj; try reflexivity.
all: try (intros Hs; apply http_Error_status; exact Hs).
all: try (intros v Hin; apply in_app_or in Hin as [Hin | Hin]; [exact Hin |];
          simpl in Hin; decompose [or] Hin; try discriminate; contradiction).
all: rewrite Hg, Hpath; reflexivity.
Qed.

(** The outcomes are received from as many goroutines as there are
    members. *)
Lemma responses_length query method (env : Env) a requests a' :
  build_requests query method (members env) [] a = inr (requests, a') ->
  length (receive (length requests) (arrival env) (map (Do env) requests))
  = length (members env).
Proof.
intros H; apply build_requests_inr in H as (Hl & _).
rewrite <- (length_map (Do env) requests) at 1.
rewrite (Permutation_length (receive_perm _ _)), length_map, Hl; reflexivity.
Qed.

Lemma members_checked (env : Env) :
  members env <> [] -> (length (members env) <=? 0)%nat = false.
Proof. destruct (members env); [congruence | reflexivity]. Qed.

(** C6. A failed [Merge] is fatal: when the gather has come, with the
    aggregate [acc], to a peer answer with status 200 and [Merge] of its
    decoded result returns an error, [handleUserQuery] stops there and
    answers 500 with that error; no result is encoded and the outcomes
    after it are not looked at. *)
Theorem handleUserQuery_merge_failure_fatal
  (env : Env) (a : API) (w : writer) (r : Request) (statsOnly : bool)
  (query : QueryParams) (requests : list Request) (a1 a2 : API)
  (pre post : list response) (resp : Response) (acc : Result) (err : error) :
  members env <> [] ->
  MakeQueryParams (URL_Query (R_URL r)) = inr query ->
  build_requests query (if statsOnly then "HEAD" else "GET") (members env) []
    (emit (call_MakeQueryParams (URL_Query (R_URL r))) (emit peer_Current a))
    = inr (requests, a1) ->
  receive (length requests) (arrival env) (map (Do env) requests)
    = (pre ++ answered resp :: post)%list ->
  gather pre (aggregate0 query)
         (fold_left (fun a req => emit (go_Do req) a) requests a1)
    = inr (acc, a2) ->
  StatusCode resp = http.StatusOK ->
  Merge acc (DecodeFrom resp) = inl err ->
  let x := handleUserQuery env a w r statsOnly in
  out x = Returned /\
  rw x = http_Error (Wrap err "merging results") http.StatusInternalServerError w /\
  (http.status (sent w) = None ->
   http.status (sent (rw x)) = Some http.StatusInternalServerError) /\
  api x = a2.
Proof.
intros Hm Hq Hb Hr Hg Hs HM x; subst x; unfold handleUserQuery.
rewrite (members_checked env Hm), Hq, Hb, Hr, gather_app.
fold (aggregate0 query); rewrite Hg; cbn [gather].
rewrite Hs, Z.eqb_refl, HM; cbn [negb returned out rw api].
repeat apply conj; try reflexivity.
apply http_Error_status.
Qed.

(** [Merge] folded from an aggregate with one more error. *)
Lemma merge_all_incr (Hc : Merge_counts_receiver) ps acc :
  merge_all ps (ErrorCount_incr acc) =
  match merge_all ps acc with
  | inl err => inl err
  | inr m => inr (ErrorCount_incr m)
  end.
Proof.
revert acc; induction ps as [| p ps IH]; intros acc; simpl.
- reflexivity.
- rewrite Hc. destruct (Merge acc p) as [err | m]; [reflexivity | apply IH].
Qed.

(** The gather is the fold of [Merge] over the successes, with one error
    counted and one line logged for each failure. *)
Lemma gather_partials (Hc : Merge_counts_receiver) responses acc a :
  match merge_all (partials responses) acc with
  | inl err =>
      exists a', gather responses acc a = inl (Wrap err "merging results", a')
  | inr m =>
      exists a',
        gather responses acc a =
          inr (Nat.iter (count_failures responses) ErrorCount_incr m, a') /\
        length (logger a') = (length (logger a) + count_failures responses)%nat
  end.
Proof.
revert acc a; induction responses as [| x rest IH]; intros acc a.
- simpl. exists a; split; [reflexivity | unfold count_failures; simpl; lia].
- assert (Hfail : forall line,
            partials (x :: rest) = partials rest ->
            count_failures (x :: rest) = S (count_failures rest) ->
            gather (x :: rest) acc a
              = gather rest (ErrorCount_incr acc) (Log line a) ->
            match merge_all (partials (x :: rest)) acc with
            | inl err =>
                exists a', gather (x :: rest) acc a
                           = inl (Wrap err "merging results", a')
            | inr m =>
                exists a',
                  gather (x :: rest) acc a =
                    inr (Nat.iter (count_failures (x :: rest)) ErrorCount_incr m, a') /\
                  length (logger a')
                  = (length (logger a) + count_failures (x :: rest))%nat
            end).
  { intros line -> -> ->.
    specialize (IH (ErrorCount_incr acc) (Log line a)).
    rewrite (merge_all_incr Hc) in IH.
    destruct (merge_all (partials rest) acc) as [err | m]; [exact IH |].
    destruct IH as (a' & E & L); exists a'; split.
    - rewrite E, Nat.iter_succ_r; reflexivity.
    - rewrite L; cbn [Log logger]; rewrite length_app; simpl; lia. }
  destruct x as [err | resp].
  + apply (Hfail (gather_err err)); reflexivity.
  + destruct (Z.eqb_spec (StatusCode resp) http.StatusOK) as [Hs | Hs].
    * clear Hfail; apply Z.eqb_eq in Hs.
      unfold count_failures; cbn [partials gather filter succeeded].
      rewrite Hs; cbn [negb merge_all].
      destruct (Merge acc (DecodeFrom resp)) as [err | m].
      { exists a; reflexivity. }
      apply IH.
    * apply Z.eqb_neq in Hs.
      apply (Hfail (status_line resp)).
      -- simpl; rewrite Hs; reflexivity.
      -- unfold count_failures; simpl; rewrite Hs; reflexivity.
      -- simpl; rewrite Hs; reflexivity.
Qed.

Lemma merge_all_errors (Ha : Merge_adds_errors) ps acc m :
  merge_all ps acc = inr m ->
  in_int (ErrorCount acc) ->
  in_int (ErrorCount m) /\
  wrap_int (ErrorCount m) = wrap_int (ErrorCount acc + sum_errors ps).
Proof.
revert acc; induction ps as [| p ps IH]; intros acc H Hin; simpl in *.
- injection H as <-. split; [exact Hin | f_equal; lia].
- destruct (Merge acc p) as [err | m1] eqn:E; [discriminate |].
  apply Ha in E.
  destruct (IH m1 H) as (Hr & Hw).
  { rewrite E; apply wrap_int_range. }
  split; [exact Hr |].
  rewrite Hw, E, wrap_int_add_l; f_equal; lia.
Qed.

Lemma iter_incr k (m : Result) :
  let m' := Nat.iter k ErrorCount_incr m in
  Params m' = Params m /\ Rest m' = Rest m /\ Duration m' = Duration m /\
  (in_int (ErrorCount m) -> in_int (ErrorCount m')) /\
  wrap_int (ErrorCount m') = wrap_int (ErrorCount m + Z.of_nat k).
Proof.
induction k as [| k (HP & HR & HD & Hin & Hw)].
- simpl. repeat apply conj; try reflexivity; [tauto | f_equal; lia].
- rewrite Nat.iter_succ; cbn [ErrorCount_incr Params Rest Duration ErrorCount].
  repeat apply conj; try assumption.
  + intros _; apply wrap_int_range.
  + rewrite <- (wrap_int_add_l (ErrorCount _)), Hw, !wrap_int_add_l.
    rewrite (wrap_int_id (wrap_int _)) by apply wrap_int_range.
    f_equal; lia.
Qed.

Lemma partials_failures responses :
  (length (partials responses) + count_failures responses)%nat
  = length responses.
Proof.
unfold count_failures; induction responses as [| x rest IH]; simpl.
- reflexivity.
- destruct x as [err | resp]; simpl; [lia |].
  destruct (StatusCode resp =? http.StatusOK); simpl; lia.
Qed.

(** The gather in general.  N requests are dispatched, one per member;
    K of the outcomes are failures and N - K are successes.  No failure
    stops the gather: whenever the fold of [Merge] over the N - K partial
    results goes through, the handler encodes a result.  That result has
    the parameters and the totals of the fold, and its [ErrorCount] is K
    plus the error counts that the partial results bring along (in Go's
    [int]), given that [Merge] adds such counts up; one line is logged for
    each failure. *)
Lemma handleUserQuery_partial_failure
  (Hc : Merge_counts_receiver) (Ha : Merge_adds_errors)
  (env : Env) (a : API) (w : writer) (r : Request) (statsOnly : bool)
  (query : QueryParams) (requests : list Request) (a1 : API) (merged : Result) :
  members env <> [] ->
  MakeQueryParams (URL_Query (R_URL r)) = inr query ->
  build_requests query (if statsOnly then "HEAD" else "GET") (members env) []
    (emit (call_MakeQueryParams (URL_Query (R_URL r))) (emit peer_Current a))
    = inr (requests, a1) ->
  let responses :=
    receive (length requests) (arrival env) (map (Do env) requests) in
  let K := count_failures responses in
  merge_all (partials responses) (aggregate0 query) = inr merged ->
  length responses = length (members env) /\
  (length (partials responses) + K)%nat = length responses /\
  exists result a',
    handleUserQuery env a w r statsOnly =
      returned
        (do_wcalls (QueryResult_EncodeTo (set_Duration (since env) result)) w) a' /\
    ErrorCount result
      = wrap_int (Z.of_nat K + sum_errors (partials responses)) /\
    Rest result = Rest merged /\
    Params result = Params merged /\
    length (logger a') = (length (logger a) + K)%nat.
Proof.
intros Hm Hq Hb responses K HM.
split; [exact (responses_length _ _ _ _ _ _ Hb) |].
split; [apply partials_failures |].
pose proof (gather_partials Hc responses (aggregate0 query)
              (fold_left (fun a req => emit (go_Do req) a) requests a1)) as G.
rewrite HM in G; destruct G as (a' & G & L).
destruct (iter_incr K merged) as (HP & HR & _ & Hin & Hw).
destruct (merge_all_errors Ha _ _ _ HM) as (Hin0 & Hw0).
{ unfold in_int, int_min, int_max; simpl; lia. }
exists (Nat.iter K ErrorCount_incr merged), a'.
repeat apply conj.
- unfold handleUserQuery.
  rewrite (members_checked env Hm), Hq, Hb.
  fold responses; fold (aggregate0 query); rewrite G; reflexivity.
- rewrite <- (wrap_int_id _ (Hin Hin0)), Hw.
  rewrite <- wrap_int_add_l, Hw0, wrap_int_add_l.
  cbn [aggregate0 ErrorCount]; f_equal; lia.
- exact HR.
- exact HP.
- rewrite L. f_equal.
  assert (E : forall (l : list Request) b,
             logger (fold_left (fun a req => emit (go_Do req) a) l b) = logger b).
  { induction l as [| q l IHl]; intros b; simpl; [reflexivity | rewrite IHl; reflexivity]. }
  rewrite E.
  apply build_requests_inr in Hb as (_ & _ & Hg & _); rewrite Hg; reflexivity.
Qed.

Lemma no_own_errors_sum (ps : list Result) :
  no_own_errors ps -> sum_errors ps = 0.
Proof.
unfold no_own_errors; induction 1 as [| p ps Hp _ IH]; simpl;
  [reflexivity | rewrite Hp, IH; reflexivity].
Qed.

(** C2, as the code has it.  N requests are dispatched, one per member
    (N fits Go's [int], as the length of a slice does); K of the outcomes
    are a transport error or an answer with a status other than 200, and
    N - K are answers with status 200.  [Merge] adds up the error counts
    of its arguments and takes the count of its receiver as a plain
    count, and the N - K answers decode to partial results that carry no
    error count of their own.  Then no failure stops the gather: whenever
    the fold of [Merge] over the N - K partial results goes through, the
    handler encodes a result whose [ErrorCount] is K and whose parameters
    and totals are those of the fold; one line is logged for each
    failure. *)
Theorem handleUserQuery_gather_complete
  (Hc : Merge_counts_receiver) (Ha : Merge_adds_errors)
  (env : Env) (a : API) (w : writer) (r : Request) (statsOnly : bool)
  (query : QueryParams) (requests : list Request) (a1 : API) (merged : Result) :
  members env <> [] ->
  Z.of_nat (length (members env)) <= int_max ->
  MakeQueryParams (URL_Query (R_URL r)) = inr query ->
  build_requests query (if statsOnly then "HEAD" else "GET") (members env) []
    (emit (call_MakeQueryParams (URL_Query (R_URL r))) (emit peer_Current a))
    = inr (requests, a1) ->
  let responses :=
    receive (length requests) (arrival env) (map (Do env) requests) in
  let K := count_failures responses in
  no_own_errors (partials responses) ->
  merge_all (partials responses) (aggregate0 query) = inr merged ->
  length responses = length (members env) /\
  (length (partials responses) + K)%nat = length responses /\
  exists result a',
    handleUserQuery env a w r statsOnly =
      returned
        (do_wcalls (QueryResult_EncodeTo (set_Duration (since env) result)) w) a' /\
    ErrorCount result = Z.of_nat K /\
    Rest result = Rest merged /\
    Params result = Params merged /\
    length (logger a') = (length (logger a) + K)%nat.
Proof.
intros Hm Hn Hq Hb responses K Hz HM.
destruct (handleUserQuery_partial_failure Hc Ha env a w r statsOnly query
            requests a1 merged Hm Hq Hb HM)
  as (Hl & Hk & result & a' & Hx & He & Hr & Hp & Hg).
fold responses in Hl, Hk, He, Hg; fold K in Hk, He, Hg.
split; [exact Hl |]. split; [exact Hk |].
exists result, a'. repeat apply conj; try assumption.
rewrite He, (no_own_errors_sum _ Hz), Z.add_0_r.
apply wrap_int_id. unfold in_int, int_min, int_max in *. lia.
Qed.

End UserQuery.

(** ** Streams *)

Section Streams.

Context {store : Store}.

(** A [*interceptingWriter] has no [Flush] method, whatever it wraps. *)
Lemma intercepting_not_Flusher iw : assert_Flusher (Intercepting iw) = false.
Proof. reflexivity. Qed.

(** The writer of the server itself passes the assertion when it can
    flush, and [handleUserStream] then streams each record, flushed. *)
Lemma handleUserStream_direct (env : Env) a c r query :
  MakeQueryParams (URL_Query (R_URL r)) = inr query ->
  assert_Flusher (Direct c) = true ->
  handleUserStream env a (Direct c) r =
    mkExec (fst (user_stream_loop (selects env) (Direct c)))
           (snd (user_stream_loop (selects env) (Direct c)))
           (emit go_stream_Execute
              (emit (call_MakeQueryParams (URL_Query (R_URL r))) a)).
Proof.
intros Hq Hf; unfold handleUserStream; rewrite Hq, Hf; cbn [negb].
destruct (user_stream_loop _ _); reflexivity.
Qed.

(** C4, as the code has it.  Behind [ServeHTTP] both stream handlers get
    the [interceptingWriter], whose type has no [Flush]: a GET of
    [/stream] or [/_stream] with valid parameters is answered 412 and no
    record is streamed, also when the server's writer can flush. *)
Theorem ServeHTTP_stream_412
  (env : Env) (a : API) (w : http.conn) (r : Request) (query : QueryParams) :
  Method r = "GET" ->
  Path (R_URL r) = APIPathUserStream \/ Path (R_URL r) = APIPathInternalStream ->
  MakeQueryParams (URL_Query (R_URL r)) = inr query ->
  let x := snd (ServeHTTP env a w r) in
  out x = Returned /\
  rw x = http_Error "can't stream to your client" http.StatusPreconditionFailed
                    (Intercepting (mkIW http.StatusOK w)) /\
  (http.status (http.conn_resp w) = None ->
   http.status (sent (rw x)) = Some http.StatusPreconditionFailed) /\
  http.flushes (sent (rw x)) = http.flushes (http.conn_resp w) /\
  calls (api x) = (calls a ++ [call_MakeQueryParams (URL_Query (R_URL r))])%list.
Proof.
intros Hmeth Hpath Hq x; subst x.
unfold ServeHTTP, route. rewrite Hmeth.
destruct Hpath as [Hp | Hp]; rewrite Hp;
  cbn [String.eqb Ascii.eqb Bool.eqb andb APIPathUserQuery APIPathInternalQuery
       APIPathUserStream APIPathInternalStream];
  unfold handleUserStream, handleInternalStream;
  rewrite Hq, intercepting_not_Flusher;
  cbn [negb returned snd out rw api].
all: repeat apply conj; try reflexivity.
all: try (intros Hs; apply http_Error_status; exact Hs).
all: apply (http_Error_flushes _ _ (Intercepting (mkIW http.StatusOK w))).
Qed.

End Streams.

(** ** The URLs of the fan-out *)

Section FanOut.

Context {store : Store}.

(** [query.EncodeTo(u.Query())] fills a map that [u.Query()] has just
    made from [u.RawQuery] and that nothing reads afterwards: the requests
    of the internal query, and the URLs of the internal streams, are the
    same whatever the parameters are. *)
Theorem internal_urls_ignore_query
  (q1 q2 : QueryParams) (method : string) (members : list string)
  (requests : list Request) (a1 a2 : API) (addr : string) :
  built (build_requests q1 method members requests a1)
  = built (build_requests q2 method members requests a2) /\
  fst (stream_url q1 addr a1) = fst (stream_url q2 addr a2).
Proof.
split.
- revert requests a1 a2; induction members as [| hostport rest IH];
    intros requests a1 a2; simpl.
  + reflexivity.
  + destruct (url_Parse _) as [err | u]; [reflexivity |].
    destruct (http_NewRequest _ _) as [err | req]; [reflexivity |].
    apply IH.
- unfold stream_url. destruct (url_Parse _) as [err | u]; reflexivity.
Qed.

End FanOut.

(** ** The latency sample of ServeHTTP *)

Lemma rw_Header_Set_intercepting k v w :
  is_intercepting (rw_Header_Set k v w) = is_intercepting w.
Proof. destruct w; reflexivity. Qed.

Lemma rw_WriteHeader_intercepting c w :
  is_intercepting (rw_WriteHeader c w) = is_intercepting w.
Proof. destruct w; reflexivity. Qed.

Lemma rw_Write_intercepting b w :
  is_intercepting (rw_Write b w) = is_intercepting w.
Proof. destruct w; reflexivity. Qed.

Lemma http_Error_intercepting msg c w :
  is_intercepting (http_Error msg c w) = is_intercepting w.
Proof. destruct w; reflexivity. Qed.

Lemma Fprintln_intercepting s w :
  is_intercepting (Fprintln s w) = is_intercepting w.
Proof. destruct w; reflexivity. Qed.

Lemma http_Redirect_intercepting url c w :
  is_intercepting (http_Redirect url c w) = is_intercepting w.
Proof.
unfold http_Redirect.
destruct (has_header _ _); destruct w; reflexivity.
Qed.

Lemma do_wcalls_intercepting cs w :
  is_intercepting (do_wcalls cs w) = is_intercepting w.
Proof.
unfold do_wcalls; revert w; induction cs as [| c cs IH]; intros w; simpl.
- reflexivity.
- rewrite IH; destruct c; simpl;
    auto using rw_Header_Set_intercepting, rw_WriteHeader_intercepting,
               rw_Write_intercepting.
Qed.

Create Rewrite HintDb intercepting.

#[local] Hint Rewrite http_Error_intercepting Fprintln_intercepting
  do_wcalls_intercepting rw_Write_intercepting rw_Header_Set_intercepting
  : intercepting.

Section Serve.

Context {store : Store}.

Ltac handled_now :=
  unfold handled, returned; cbn [out rw api emit duration replicatedSegments_Inc
    replicatedBytes_Add];
  autorewrite with intercepting;
  repeat apply conj; solve [discriminate | assumption | reflexivity].

Lemma emit_all_duration (l : list Request) (b : API) :
  duration (fold_left (fun a req => emit (go_Do req) a) l b) = duration b.
Proof.
revert b; induction l as [| q l IH]; intros b; simpl;
  [reflexivity | rewrite IH; reflexivity].
Qed.

Lemma handleUserQuery_handled env a w r statsOnly :
  is_intercepting w = true -> handled a (handleUserQuery env a w r statsOnly).
Proof.
intros Hw; unfold handleUserQuery.
destruct (length (members env) <=? 0)%nat; [handled_now |].
destruct (MakeQueryParams _) as [err | query]; [handled_now |].
destruct (build_requests _ _ _ _ _) as [[err a1] | [requests a1]] eqn:Hb.
- apply build_requests_inl in Hb as (_ & _ & Hd).
  unfold handled, returned; cbn [out rw api]; autorewrite with intercepting.
  repeat apply conj; [discriminate | exact Hw | exact Hd].
- apply build_requests_inr in Hb as (_ & _ & _ & Hd).
  match goal with |- context [gather ?rs ?res ?b] =>
    pose proof (gather_api rs res b) as G; destruct (gather rs res b) as [[e a2] | [m a2]]
  end; destruct G as (_ & G & _); rewrite emit_all_duration, Hd in G;
  unfold handled, returned; cbn [out rw api]; autorewrite with intercepting;
  (repeat apply conj; [discriminate | exact Hw | exact G]).
Qed.

Lemma handleInternalQuery_handled env a w r statsOnly :
  is_intercepting w = true -> handled a (handleInternalQuery env a w r statsOnly).
Proof.
intros Hw; unfold handleInternalQuery.
destruct (MakeQueryParams _) as [err | query]; [handled_now |].
destruct (Query env query statsOnly) as [err | result]; handled_now.
Qed.

Lemma handleUserStream_handled env a w r :
  is_intercepting w = true -> handled a (handleUserStream env a w r).
Proof.
intros Hw; unfold handleUserStream.
destruct (MakeQueryParams _) as [err | query]; [handled_now |].
destruct w as [c | iw]; [discriminate |].
rewrite intercepting_not_Flusher; handled_now.
Qed.

Lemma handleInternalStream_handled env a w r :
  is_intercepting w = true -> handled a (handleInternalStream env a w r).
Proof.
intros Hw; unfold handleInternalStream.
destruct (MakeQueryParams _) as [err | query]; [handled_now |].
destruct w as [c | iw]; [discriminate |].
rewrite intercepting_not_Flusher; handled_now.
Qed.

Lemma handleReplicate_handled env a w r :
  is_intercepting w = true -> handled a (handleReplicate env a w r).
Proof.
intros Hw; unfold handleReplicate.
destruct (Create env) as [err |]; [handled_now |].
destruct (mergeRecords (R_Body r)) as [[[low high] n] [err |]]; [handled_now |].
destruct (n =? 0); [handled_now |].
destruct (Close env low high) as [err |]; [handled_now |].
destruct (n <? 0); handled_now.
Qed.

Lemma handleClusterState_handled env a w r :
  is_intercepting w = true -> handled a (handleClusterState env a w r).
Proof.
intros Hw; unfold handleClusterState.
destruct (State env) as [err | buf]; handled_now.
Qed.

(** Every branch of the switch ends, with the intercepting writer in
    place and the histogram untouched; only the redirect changes the path
    of the request. *)
Lemma route_handled env a iw r :
  let (r', x) := route env a (Intercepting iw) r in
  handled a x /\ Method r' = Method r /\ Path (R_URL r') = observed_path r.
Proof.
unfold route, observed_path.
repeat match goal with
| |- context [if ?c then _ else _] => destruct c
end; cbn [set_Path Method R_URL Path];
  (split; [| split; reflexivity]);
  auto using handleUserQuery_handled, handleInternalQuery_handled,
             handleUserStream_handled, handleInternalStream_handled,
             handleReplicate_handled, handleClusterState_handled;
  unfold handled, returned, http_NotFound; cbn [out rw api];
  rewrite ?http_Redirect_intercepting, ?http_Error_intercepting;
  repeat apply conj; solve [discriminate | reflexivity].
Qed.

(** Every request through [ServeHTTP] ends (the handler returns or
    panics) and leaves exactly one sample in the histogram, labelled with
    the method, with [r.URL.Path] as it is when the handler is done, and
    with the code held by the intercepting writer.  That path is the path
    of the request on every route but the redirect of [GET /], where it
    is [/query]. *)
Theorem ServeHTTP_observes_once
  (env : Env) (a : API) (w : http.conn) (r : Request) :
  let x := snd (ServeHTTP env a w r) in
  out x <> Blocked /\
  is_intercepting (rw x) = true /\
  duration (api x) =
    (duration a ++ [(Method r, observed_path r, iw_code (rw x))])%list.
Proof.
unfold ServeHTTP.
pose proof (route_handled env a (mkIW http.StatusOK w) r) as H.
destruct (route env a (Intercepting (mkIW http.StatusOK w)) r) as [r' x].
destruct H as ((Ho & Hi & Hd) & Hm & Hp).
destruct (out x) eqn:E; cbn [snd out rw api Observe duration];
  try (exfalso; apply Ho; reflexivity);
  rewrite Hm, Hp, Hd; repeat apply conj; try discriminate; try assumption;
  reflexivity.
Qed.

End Serve.

(** ** The handlers at work on the sample store *)

Section Runs.

Import Model Sample Sample2.

(** The sample [Merge] is of the kind the gather theorem asks for. *)
Lemma Model_Merge_counts_receiver : Merge_counts_receiver.
Proof.
intros [pa ea da ra] [pb eb db rb]; cbn -[wrap_int].
unfold Model.Merge, ErrorCount_incr; cbn -[wrap_int].
destruct (QueryParams_eqb pa pb); cbn -[wrap_int]; [| reflexivity].
rewrite !wrap_int_add_l.
replace (ea + 1 + eb) with (ea + eb + 1) by lia.
reflexivity.
Qed.

Lemma Model_Merge_adds_errors : Merge_adds_errors.
Proof.
intros a b m; cbn. unfold Model.Merge.
destruct (QueryParams_eqb _ _); [| discriminate].
intros [= <-]; reflexivity.
Qed.

(** A push whose second line is cut short: the segment is deleted. *)
Lemma handleReplicate_failure_discards_witness :
  Create env0 = None /\
  mergeRecords (R_Body bad_push) = ("01B", "01B", 1, Some "short record") /\
  let x := handleReplicate env0 api0 w0 bad_push in
  out x = Returned /\
  http.status (sent (rw x)) = Some http.StatusInternalServerError /\
  calls (api x) =
    [log_Create; segment_Write (content (R_Body bad_push));
     segment_Delete; Body_Close].
Proof.
split; [reflexivity |]. split; [reflexivity |].
destruct (handleReplicate_failure_discards env0 api0 w0 bad_push
            "01B" "01B" 1 "short record" eq_refl eq_refl)
  as (Ho & _ & Hs & Hc & _).
split; [exact Ho |]. split; [exact (Hs eq_refl) | exact Hc].
Defined.

(** A push with an empty body. *)
Lemma handleReplicate_empty_push_witness :
  Create env0 = None /\
  mergeRecords (R_Body empty_push) = ("", "", 0, None) /\
  let x := handleReplicate env0 api0 w0 empty_push in
  http.body (sent (rw x)) = "No records" ++ nl /\
  http.status (sent (rw x)) = Some http.StatusOK /\
  calls (api x) = [log_Create; segment_Write ""; segment_Delete; Body_Close] /\
  replicatedSegments (api x) = 0 /\ replicatedBytes (api x) = 0.
Proof.
split; [reflexivity |]. split; [reflexivity |].
destruct (handleReplicate_empty_push env0 api0 w0 empty_push "" ""
            eq_refl eq_refl)
  as (_ & _ & Ht & Hst & _ & Hc & _ & Hs & Hb).
split; [exact Ht |]. split; [exact (Hst eq_refl) |].
split; [exact Hc |]. split; [exact Hs | exact Hb].
Defined.

(** A push of two records, committed with the watermarks 01A and 01B. *)
Lemma handleReplicate_commit_witness :
  Create env0 = None /\
  mergeRecords (R_Body good_push) = ("01A", "01B", 2, None) /\
  0 < 2 /\
  let x := handleReplicate env0 api0 w0 good_push in
  calls (api x) =
    [log_Create; segment_Write (content (R_Body good_push));
     segment_Close "01A" "01B"; Body_Close] /\
  http.body (sent (rw x)) = "OK" ++ nl /\
  http.status (sent (rw x)) = Some http.StatusOK /\
  replicatedSegments (api x) = 1 /\ replicatedBytes (api x) = 2.
Proof.
split; [reflexivity |]. split; [reflexivity |]. split; [lia |].
destruct (handleReplicate_commit env0 api0 w0 good_push "01A" "01B" 2
            eq_refl eq_refl ltac:(lia))
  as (_ & Hc & _ & Ht & Hst & Hs & Hb).
split; [exact Hc |]. split; [exact Ht |]. split; [exact (Hst eq_refl) |].
split; [exact Hs | exact Hb].
Defined.

(** A query while no store peer is known. *)
Lemma handleUserQuery_no_peers_witness :
  members (with_members [] env0) = [] /\
  let x := handleUserQuery (with_members [] env0) api0 w0 query_foo false in
  http.status (sent (rw x)) = Some http.StatusServiceUnavailable /\
  calls (api x) = [peer_Current].
Proof.
split; [reflexivity |].
destruct (handleUserQuery_no_peers (with_members [] env0) api0 w0 query_foo
            false eq_refl)
  as (_ & _ & Hs & Hc & _).
split; [exact (Hs eq_refl) | exact Hc].
Defined.

(** A query with a malformed bound while no store peer is known: 503,
    not 400. *)
Lemma ServeHTTP_query_unavailable_first_witness :
  (Method query_malformed = "GET" \/ Method query_malformed = "HEAD") /\
  Path (R_URL query_malformed) = APIPathUserQuery /\
  members (with_members [] env0) = [] /\
  (exists err, peer_decodes query_malformed = inl err) /\
  let x := snd (ServeHTTP (with_members [] env0) api0 std_conn query_malformed) in
  http.status (sent (rw x)) = Some http.StatusServiceUnavailable /\
  calls (api x) = [peer_Current].
Proof.
split; [left; reflexivity |]. split; [reflexivity |]. split; [reflexivity |].
split; [eexists; reflexivity |].
destruct (ServeHTTP_query_unavailable_first (with_members [] env0) api0
            std_conn query_malformed (or_introl eq_refl) eq_refl eq_refl)
  as (_ & _ & Hs & _ & Hc & _).
split; [exact (Hs eq_refl) | exact Hc].
Defined.

(** A peer that answers a query for [foo] with a result for [bar]. *)
Lemma handleUserQuery_merge_failure_fatal_witness :
  members (one_peer "bar" 0 5) <> [] /\
  MakeQueryParams (URL_Query (R_URL query_foo)) = inr (params "foo") /\
  Merge (aggregate0 (params "foo")) (partial "bar" 0 5) = inl "mismatched params" /\
  let x := handleUserQuery (one_peer "bar" 0 5) api0 w0 query_foo false in
  http.status (sent (rw x)) = Some http.StatusInternalServerError /\
  http.body (sent (rw x)) = "merging results: mismatched params" ++ nl.
Proof.
split; [discriminate |]. split; [reflexivity |]. split; [reflexivity |].
pose proof (fun a1 a2 =>
  handleUserQuery_merge_failure_fatal (one_peer "bar" 0 5) api0 w0
    query_foo false (params "foo") [peer_request] a1 a2 [] []
    (ok_response (partial "bar" 0 5))
    (aggregate0 (store := Model.store) (params "foo"))
    "mismatched params") as H.
edestruct H as (_ & Hw & Hs & _);
  [discriminate | reflexivity | reflexivity | reflexivity | reflexivity
  | reflexivity | reflexivity |].
split; [exact (Hs eq_refl) | rewrite Hw; reflexivity].
Defined.

(** Three peers, of which one answers: two errors counted, five
    matches, two lines logged. *)
Lemma handleUserQuery_gather_complete_witness :
  Merge_counts_receiver /\ Merge_adds_errors /\
  members env0 <> [] /\
  Z.of_nat (length (members env0)) <= int_max /\
  MakeQueryParams (URL_Query (R_URL query_foo)) = inr (params "foo") /\
  no_own_errors [partial "foo" 0 5] /\
  exists result a',
    handleUserQuery env0 api0 w0 query_foo false =
      returned (do_wcalls (QueryResult_EncodeTo (set_Duration "3ms" result)) w0) a' /\
    ErrorCount result = 2 /\ Rest result = 5 /\ length (logger a') = 2%nat.
Proof.
split; [exact Model_Merge_counts_receiver |].
split; [exact Model_Merge_adds_errors |].
split; [discriminate |]. split; [vm_compute; discriminate |].
split; [reflexivity |].
split; [repeat constructor |].
pose proof (handleUserQuery_gather_complete Model_Merge_counts_receiver
              Model_Merge_adds_errors env0 api0 w0 query_foo false
              (params "foo")) as H.
edestruct H as (_ & _ & result & a' & Hx & He & Hr & _ & Hl);
  [discriminate | vm_compute; discriminate | reflexivity | reflexivity
  | repeat constructor | reflexivity |].
exists result, a'.
split; [exact Hx |]. split; [rewrite He; reflexivity |].
split; [rewrite Hr; reflexivity | rewrite Hl; reflexivity].
Defined.

(** C2 fails as it is stated: one peer, which answers the query with
    204 No Content.  204 is a success status, so of the one request none
    has failed in the words of the claim, K is 0 and the one partial
    result should be in the totals.  The handler takes 200 alone as
    success: it logs the answer as a failure, merges nothing, and encodes
    an aggregate with [ErrorCount] 1 and no matches. *)
Lemma handleUserQuery_204_counterexample :
  let responses :=
    receive 1 (arrival peer_204) (map (Do peer_204) [peer_request]) in
  built (build_requests (params "foo") "GET" (members peer_204) [] api0)
    = inr [peer_request] /\
  responses =
    [answered (mkPeerResponse 204 (mkReader "" None) (partial "foo" 0 5))] /\
  length (filter claimed_failure responses) = 0%nat /\
  exists result a a',
    gather responses (aggregate0 (params "foo")) a = inr (result, a') /\
    handleUserQuery peer_204 api0 w0 query_foo false =
      returned
        (do_wcalls
           (QueryResult_EncodeTo (set_Duration (since peer_204) result)) w0) a' /\
    ErrorCount result = 1 /\
    ErrorCount result <> Z.of_nat (length (filter claimed_failure responses)) /\
    Rest result = 0 /\
    Rest result <> Rest (partial "foo" 0 5) /\
    logger a' = [gather_status 204 "unknown"].
Proof.
cbv zeta. split; [reflexivity |]. split; [reflexivity |]. split; [reflexivity |].
eexists _, _, _.
split; [reflexivity |]. split; [reflexivity |]. split; [reflexivity |].
split; [discriminate |]. split; [reflexivity |]. split; [discriminate | reflexivity].
Qed.

(** A stream request on the writer of the standard server, which can
    flush: 412 all the same, and nothing flushed. *)
Lemma ServeHTTP_stream_412_witness :
  Method stream_foo = "GET" /\
  (Path (R_URL stream_foo) = APIPathUserStream \/
   Path (R_URL stream_foo) = APIPathInternalStream) /\
  MakeQueryParams (URL_Query (R_URL stream_foo)) = inr (params "foo") /\
  assert_Flusher (Direct std_conn) = true /\
  let x := snd (ServeHTTP env0 api0 std_conn stream_foo) in
  http.status (sent (rw x)) = Some http.StatusPreconditionFailed /\
  http.flushes (sent (rw x)) = 0%nat.
Proof.
split; [reflexivity |]. split; [left; reflexivity |]. split; [reflexivity |].
split; [reflexivity |].
destruct (ServeHTTP_stream_412 env0 api0 std_conn stream_foo (params "foo")
            eq_refl (or_introl eq_refl) eq_refl)
  as (_ & _ & Hs & Hf & _).
split; [exact (Hs eq_refl) | exact Hf].
Defined.

(** C5 at work: for the query [foo] and the peer [10.0.0.1:7650] the
    request of the fan-out goes to [http://10.0.0.1:7650/store/_query],
    with an empty query string; the peer reads empty parameters from it,
    not those of the client; the stream URL has none either. *)
Lemma internal_query_url_drops_params :
  built (build_requests (params "foo") "GET" ["10.0.0.1:7650"] [] api0)
    = inr [peer_request] /\
  URL_String (R_URL peer_request) = "http://10.0.0.1:7650/store/_query" /\
  RawQuery (R_URL peer_request) = "" /\
  peer_decodes peer_request = inr (mkQueryParams "" "" "") /\
  peer_decodes peer_request <> inr (params "foo") /\
  fst (stream_url (params "foo") "10.0.0.1:7650" api0)
    = inr "http://10.0.0.1:7650/store/_stream".
Proof.
repeat apply conj; try reflexivity. discriminate.
Qed.

(** C9 at work: a [GET /] is redirected, and its one sample is labelled
    with the path [/query], not with the path [/] of the request. *)
Lemma ServeHTTP_redirect_sample :
  let r := request "GET" "/" "q=foo" "" in
  let x := snd (ServeHTTP env0 api0 std_conn r) in
  Path (R_URL r) = "/" /\
  http.status (sent (rw x)) = Some http.StatusTemporaryRedirect /\
  duration (api x) = [("GET", "/query", http.StatusTemporaryRedirect)] /\
  duration (api x) <> [("GET", Path (R_URL r), http.StatusTemporaryRedirect)].
Proof.
cbv zeta. repeat apply conj; try reflexivity. discriminate.
Qed.

End Runs.

(** * Further properties of the file *)



(** ** The switch of ServeHTTP *)

Section Routing.

Context {store : Store}.

Lemma not_routed (r : Request) m p :
  ~ In (Method r, Path (R_URL r)) routes ->
  In (m, p) routes ->
  ((Method r =? m) && (Path (R_URL r) =? p))%string = false.
Proof.
intros Hn Hin.
destruct (String.eqb_spec (Method r) m) as [Hm | Hm]; [| reflexivity].
destruct (String.eqb_spec (Path (R_URL r)) p) as [Hp | Hp]; [| reflexivity].
exfalso; apply Hn; rewrite Hm, Hp; exact Hin.
Qed.

(** X1. A request whose method and path are not one of the nine pairs of
    the switch gets the 404 of [http.NotFound]: no collaborator is called,
    nothing of the [API] value changes but the histogram, which gets the
    sample of the request with code 404. *)
Theorem ServeHTTP_not_found
  (env : Env) (a : API) (w : http.conn) (r : Request) :
  ~ In (Method r, Path (R_URL r)) routes ->
  ServeHTTP env a w r =
    (r, mkExec Returned
               (http_NotFound (Intercepting (mkIW http.StatusOK w)))
               (Observe (Method r) (Path (R_URL r)) http.StatusNotFound a)) /\
  (http.status (http.conn_resp w) = None ->
   http.status (sent (rw (snd (ServeHTTP env a w r)))) = Some http.StatusNotFound).
Proof.
intros Hn.
assert (E : ServeHTTP env a w r =
    (r, mkExec Returned
               (http_NotFound (Intercepting (mkIW http.StatusOK w)))
               (Observe (Method r) (Path (R_URL r)) http.StatusNotFound a))).
{ unfold ServeHTTP, route.
  rewrite !(not_routed r _ _ Hn) by (unfold routes; simpl; auto 12).
  reflexivity. }
split; [exact E |].
intros Hs; rewrite E; cbn [snd rw].
apply (http_Error_status _ _ (Intercepting (mkIW http.StatusOK w))); exact Hs.
Qed.


End Routing.

(** ** The code of the intercepting writer and the status on the wire *)

Lemma status_sticks_WriteHeader c cn s :
  http.status (http.conn_resp cn) = Some s ->
  http.status (http.conn_resp (http.conn_WriteHeader c cn)) = Some s.
Proof. intros H; unfold http.conn_WriteHeader; rewrite H; exact H. Qed.

Lemma status_sticks (cs : list wcall) iw s :
  http.status (http.conn_resp (ResponseWriter iw)) = Some s ->
  http.status (sent (do_wcalls cs (Intercepting iw))) = Some s.
Proof.
unfold do_wcalls; revert iw; induction cs as [| c cs IH]; intros iw H.
- exact H.
- destruct c as [k v | c | b]; cbn [fold_left do_wcall rw_Header_Set
    rw_WriteHeader rw_Write]; apply IH; cbn [ResponseWriter].
  + exact H.
  + apply status_sticks_WriteHeader; exact H.
  + unfold http.conn_Write; cbn.
    apply status_sticks_WriteHeader; exact H.
Qed.

Lemma do_wcalls_code_status (cs : list wcall) (iw : interceptingWriter) :
  http.status (http.conn_resp (ResponseWriter iw)) = None ->
  iw_code (do_wcalls cs (Intercepting iw)) = last_WriteHeader cs (code iw) /\
  http.status (sent (do_wcalls cs (Intercepting iw))) = first_status cs.
Proof.
unfold do_wcalls; revert iw; induction cs as [| c cs IH]; intros iw H.
- split; [reflexivity | exact H].
- destruct c as [k v | c | b]; cbn [fold_left do_wcall rw_Header_Set
    rw_WriteHeader rw_Write last_WriteHeader first_status].
  + apply (IH (mkIW (code iw) _)); exact H.
  + split.
    * clear IH H. generalize (http.conn_WriteHeader c (ResponseWriter iw)).
      generalize c; clear c; induction cs as [| d cs IHc]; intros c cn.
      { reflexivity. }
      destruct d as [k v | d | b]; cbn [fold_left do_wcall rw_Header_Set
        rw_WriteHeader rw_Write last_WriteHeader]; apply IHc.
    * apply (status_sticks cs (mkIW c _)); cbn [ResponseWriter].
      unfold http.conn_WriteHeader; rewrite H; reflexivity.
  + split.
    * clear IH H. generalize (http.conn_Write b (ResponseWriter iw)).
      generalize (code iw); induction cs as [| d cs IHc]; intros c cn.
      { reflexivity. }
      destruct d as [k v | d | b']; cbn [fold_left do_wcall rw_Header_Set
        rw_WriteHeader rw_Write last_WriteHeader]; apply IHc.
    * apply (status_sticks cs (mkIW (code iw) _)); cbn [ResponseWriter].
      unfold http.conn_Write, http.conn_WriteHeader; rewrite H; reflexivity.
Qed.

(** X3. After any calls on an intercepting writer whose [WriteHeader]s
    pass final status codes, the writer holds the code of the last
    [WriteHeader] call made on it, or the code it held before when there
    was none; the status that goes out on a connection that had sent
    nothing is that of the first [WriteHeader], or 200 when a [Write]
    came first. *)
Theorem interceptingWriter_code_and_status
  (cs : list wcall) (iw : interceptingWriter) :
  final_codes cs = true ->
  http.status (http.conn_resp (ResponseWriter iw)) = None ->
  iw_code (do_wcalls cs (Intercepting iw)) = last_WriteHeader cs (code iw) /\
  http.status (sent (do_wcalls cs (Intercepting iw))) = first_status cs.
Proof. intros _; exact (do_wcalls_code_status cs iw). Qed.

Lemma no_WriteHeader_last cs c : no_WriteHeader cs = true -> last_WriteHeader cs c = c.
Proof.
induction cs as [| d cs IH]; intros H; [reflexivity |].
destruct d; simpl in *; try discriminate; apply IH; exact H.
Qed.

Lemma header_first_agree cs :
  header_first cs = true ->
  last_WriteHeader cs http.StatusOK =
  match first_status cs with Some s => s | None => http.StatusOK end.
Proof.
induction cs as [| d cs IH]; intros H; [reflexivity |].
destruct d; cbn [header_first last_WriteHeader first_status] in *.
- apply IH; exact H.
- apply no_WriteHeader_last; exact H.
- apply no_WriteHeader_last; exact H.
Qed.

Lemma fresh_inv w :
  fresh w ->
  exists cn, w = Intercepting (mkIW http.StatusOK cn) /\
             http.status (http.conn_resp cn) = None.
Proof.
intros (Hi & Hs & Hc); destruct w as [c | [c cn]]; [discriminate |].
cbn in Hc; subst c. exists cn; split; [reflexivity | exact Hs].
Qed.

Lemma agree_fresh w : fresh w -> agree w.
Proof. intros (_ & Hs & Hc); unfold agree; rewrite Hs; exact Hc. Qed.

Lemma agree_http_Error msg c w : fresh w -> agree (http_Error msg c w).
Proof.
intros H; pose proof (http_Error_status msg c w (proj1 (proj2 H))) as Hs.
apply fresh_inv in H as (cn & -> & _).
unfold agree; rewrite Hs; reflexivity.
Qed.

Lemma agree_Fprintln s w : fresh w -> agree (Fprintln s w).
Proof.
intros H; pose proof (Fprintln_status s w (proj1 (proj2 H))) as Hs.
apply fresh_inv in H as (cn & -> & _).
unfold agree; rewrite Hs; reflexivity.
Qed.

Lemma agree_http_Redirect url c w : fresh w -> agree (http_Redirect url c w).
Proof.
intros H; apply fresh_inv in H as ([ms [h st b f]] & -> & Hs).
cbn in Hs; subst st.
unfold http_Redirect, sent; cbn [underlying ResponseWriter http.conn_resp http.header].
destruct (has_header "Content-Type" h); reflexivity.
Qed.

Lemma agree_do_wcalls cs w :
  header_first cs = true -> fresh w -> agree (do_wcalls cs w).
Proof.
intros Hh H; apply fresh_inv in H as (cn & -> & Hs).
destruct (do_wcalls_code_status cs (mkIW http.StatusOK cn) Hs) as (Hc & Hst).
unfold agree; rewrite Hc, Hst; apply header_first_agree; exact Hh.
Qed.

Section Label.

Context {store : Store}.

Hypothesis EncodeTo_header_first :
  forall qr : Result, header_first (QueryResult_EncodeTo qr) = true.

Ltac agree_now :=
  cbn [rw returned];
  solve [ apply agree_http_Error; assumption
        | apply agree_Fprintln; assumption
        | apply agree_do_wcalls; [apply EncodeTo_header_first | assumption]
        | apply agree_fresh; assumption ].

Lemma handleUserQuery_agree env a w r statsOnly :
  fresh w -> agree (rw (handleUserQuery env a w r statsOnly)).
Proof.
intros Hw; unfold handleUserQuery.
destruct (length (members env) <=? 0)%nat; [agree_now |].
destruct (MakeQueryParams _) as [err | query]; [agree_now |].
destruct (build_requests _ _ _ _ _) as [[err a1] | [requests a1]]; [agree_now |].
destruct (gather _ _ _) as [[err a2] | [m a2]]; agree_now.
Qed.

Lemma handleInternalQuery_agree env a w r statsOnly :
  fresh w -> agree (rw (handleInternalQuery env a w r statsOnly)).
Proof.
intros Hw; unfold handleInternalQuery.
destruct (MakeQueryParams _) as [err | query]; [agree_now |].
destruct (Query env query statsOnly) as [err | result]; agree_now.
Qed.

Lemma handleUserStream_agree env a w r :
  fresh w -> agree (rw (handleUserStream env a w r)).
Proof.
intros Hw; unfold handleUserStream.
destruct (MakeQueryParams _) as [err | query]; [agree_now |].
destruct (fresh_inv w Hw) as (cn & E & _).
rewrite E at 1; rewrite intercepting_not_Flusher; agree_now.
Qed.

Lemma handleInternalStream_agree env a w r :
  fresh w -> agree (rw (handleInternalStream env a w r)).
Proof.
intros Hw; unfold handleInternalStream.
destruct (MakeQueryParams _) as [err | query]; [agree_now |].
destruct (fresh_inv w Hw) as (cn & E & _).
rewrite E at 1; rewrite intercepting_not_Flusher; agree_now.
Qed.

Lemma handleReplicate_agree env a w r :
  fresh w -> agree (rw (handleReplicate env a w r)).
Proof.
intros Hw; unfold handleReplicate.
destruct (Create env) as [err |]; [agree_now |].
destruct (mergeRecords (R_Body r)) as [[[low high] n] [err |]]; [agree_now |].
destruct (n =? 0); [agree_now |].
destruct (Close env low high) as [err |]; [agree_now |].
destruct (n <? 0); agree_now.
Qed.

Lemma handleClusterState_agree env a w r :
  fresh w -> agree (rw (handleClusterState env a w r)).
Proof.
intros Hw; unfold handleClusterState.
destruct (State env) as [err | buf]; [agree_now |].
destruct (fresh_inv w Hw) as (cn & -> & Hs).
unfold agree, sent; cbn. unfold http.conn_WriteHeader; cbn; rewrite Hs; reflexivity.
Qed.

Lemma route_agree env a w r : fresh w -> agree (rw (snd (route env a w r))).
Proof.
intros Hw; unfold route.
repeat match goal with
| |- context [if ?c then _ else _] => destruct c
end; cbn [snd];
  auto using handleUserQuery_agree, handleInternalQuery_agree,
             handleUserStream_agree, handleInternalStream_agree,
             handleReplicate_agree, handleClusterState_agree.
- apply agree_http_Redirect; exact Hw.
- apply agree_http_Error; exact Hw.
Qed.

(** X4. The code in the sample is the status of the response.  On a
    connection that has sent nothing, and with a [QueryResult.EncodeTo]
    that sets the status at most once and before it writes, every request
    through [ServeHTTP] ends with the intercepting writer holding the
    status that went out (200 when the handler wrote nothing), and that
    is the code of the one sample it leaves. *)
Theorem ServeHTTP_label_is_status
  (env : Env) (a : API) (w : http.conn) (r : Request) :
  http.status (http.conn_resp w) = None ->
  let x := snd (ServeHTTP env a w r) in
  let sent_status :=
    match http.status (sent (rw x)) with Some s => s | None => http.StatusOK end in
  iw_code (rw x) = sent_status /\
  duration (api x) = (duration a ++ [(Method r, observed_path r, sent_status)])%list.
Proof.
intros Hs x sent_status.
assert (Hf : fresh (Intercepting (mkIW http.StatusOK w))).
{ repeat split; exact Hs. }
assert (Ha : agree (rw x)).
{ subst x; unfold ServeHTTP.
  pose proof (route_agree env a _ r Hf) as G.
  destruct (route env a _ r) as [r' y]; cbn [snd] in *.
  destruct (out y); exact G. }
split; [exact Ha |].
destruct (ServeHTTP_observes_once env a w r) as (_ & _ & Hd).
fold x in Hd; rewrite Hd; unfold agree in Ha; rewrite Ha; reflexivity.
Qed.

End Label.

(** ** The stream loops *)

Section StreamLoops.

Context {store : Store}.





(** X7. The stream handlers parse the parameters before they look at the
    writer: through [ServeHTTP] a GET of [/stream] or [/_stream] with
    malformed parameters is answered 400 with the parse error, not 412,
    and neither [stream.Execute] nor the stream of the log is started. *)
Theorem ServeHTTP_stream_bad_request
  (env : Env) (a : API) (w : http.conn) (r : Request) (err : error) :
  Method r = "GET" ->
  Path (R_URL r) = APIPathUserStream \/ Path (R_URL r) = APIPathInternalStream ->
  MakeQueryParams (URL_Query (R_URL r)) = inl err ->
  let x := snd (ServeHTTP env a w r) in
  out x = Returned /\
  rw x = http_Error err http.StatusBadRequest (Intercepting (mkIW http.StatusOK w)) /\
  (http.status (http.conn_resp w) = None ->
   http.status (sent (rw x)) = Some http.StatusBadRequest) /\
  calls (api x) = (calls a ++ [call_MakeQueryParams (URL_Query (R_URL r))])%list.
Proof.
intros Hmeth Hpath Hq x; subst x.
unfold ServeHTTP, route. rewrite Hmeth.
destruct Hpath as [Hp | Hp]; rewrite Hp;
  cbn [String.eqb Ascii.eqb Bool.eqb andb APIPathUserQuery APIPathInternalQuery
       APIPathUserStream APIPathInternalStream];
  unfold handleUserStream, handleInternalStream;
  rewrite Hq; cbn [returned snd out rw api].
all: repeat apply conj; try reflexivity.
all: intros Hs; apply http_Error_status; exact Hs.
Qed.

End StreamLoops.

(** ** The fan-out of the user query *)

Section FanOutMore.

Context {store : Store}.

Lemma calls_emit_all (l : list Request) (b : API) :
  calls (fold_left (fun a req => emit (go_Do req) a) l b)
  = (calls b ++ map go_Do l)%list.
Proof.
revert b; induction l as [| q l IH]; intros b; simpl.
- rewrite app_nil_r; reflexivity.
- rewrite IH; cbn [emit calls]; rewrite <- app_assoc; reflexivity.
Qed.

Lemma counters_emit_all (l : list Request) (b : API) :
  replicatedSegments (fold_left (fun a req => emit (go_Do req) a) l b)
  = replicatedSegments b /\
  replicatedBytes (fold_left (fun a req => emit (go_Do req) a) l b)
  = replicatedBytes b.
Proof.
revert b; induction l as [| q l IH]; intros b; simpl;
  [split; reflexivity | destruct (IH (emit (go_Do q) b)) as (-> & ->); split; reflexivity].
Qed.

Lemma dispatched_go_Do (l : list Request) : dispatched (map go_Do l) = l.
Proof. induction l as [| q l IH]; simpl; [reflexivity | rewrite IH; reflexivity]. Qed.

Lemma build_requests_counters query method members requests a :
  match build_requests query method members requests a with
  | inl (_, a') | inr (_, a') =>
      replicatedSegments a' = replicatedSegments a /\
      replicatedBytes a' = replicatedBytes a
  end.
Proof.
revert requests a; induction members as [| hostport rest IH];
  intros requests a; simpl.
- split; reflexivity.
- destruct (url_Parse _) as [err | u]; [split; reflexivity |].
  destruct (http_NewRequest _ _) as [err | req]; [split; reflexivity |].
  specialize (IH (requests ++ [req])%list
                 (drop_map (EncodeTo query (ParseQuery (RawQuery u))) a)).
  destruct (build_requests _ _ _ _ _) as [[e a'] | [rs a']]; exact IH.
Qed.

(** The request loop appends one request for each member, in the order
    of the members. *)
Lemma build_requests_each query method members requests a requests' a' :
  build_requests query method members requests a = inr (requests', a') ->
  exists news,
    requests' = (requests ++ news)%list /\
    Forall2 (request_for method) members news.
Proof.
revert requests a; induction members as [| hostport rest IH];
  intros requests a H; simpl in H.
- injection H as <- <-. exists []; rewrite app_nil_r; split; constructor.
- destruct (url_Parse _) as [err | u] eqn:Eu; [discriminate |].
  destruct (http_NewRequest _ _) as [err | req] eqn:Er; [discriminate |].
  apply IH in H as (news & -> & HF).
  exists (req :: news); rewrite <- app_assoc; split; [reflexivity |].
  constructor; [| exact HF]. exists u; split; assumption.
Qed.

Lemma http_NewRequest_Method method urlStr req :
  http_NewRequest method urlStr = inr req -> Method req = method.
Proof.
unfold http_NewRequest; destruct (url_Parse urlStr); [discriminate |].
intros [= <-]; reflexivity.
Qed.

Lemma request_for_Method method (ms : list string) (rs : list Request) :
  Forall2 (request_for method) ms rs ->
  Forall (fun req => Method req = method) rs.
Proof.
induction 1 as [| hostport req ms rs (u & _ & Hn) _ IH]; constructor.
- apply http_NewRequest_Method in Hn; exact Hn.
- exact IH.
Qed.

(** The request loop stops at a member whose address does not parse. *)
Lemma build_requests_bad_member query method members requests a hostport err :
  In hostport members ->
  url_Parse ("http://" ++ hostport ++ "/store" ++ APIPathInternalQuery) = inl err ->
  exists e a', build_requests query method members requests a = inl (e, a').
Proof.
revert requests a; induction members as [| h rest IH];
  intros requests a Hin Hbad; [contradiction |].
cbn [build_requests].
destruct (url_Parse ("http://" ++ h ++ "/store" ++ APIPathInternalQuery))
  as [e | u] eqn:Eu; [eauto |].
destruct (http_NewRequest _ _) as [e | req]; [eauto |].
destruct Hin as [-> | Hin]; [congruence |].
apply IH; assumption.
Qed.

(** X8. [handleUserQuery] dispatches to all the members or to none.  The
    requests are all built before the first goroutine starts: with an
    empty snapshot, with malformed parameters, or with one member whose
    address does not parse, no request is sent, whatever the other
    members are; and when the parameters are valid and every request is
    built, the requests sent are the ones built, one for each member. *)
Theorem handleUserQuery_dispatch_all_or_none
  (env : Env) (a : API) (w : writer) (r : Request) (statsOnly : bool) :
  let x := handleUserQuery env a w r statsOnly in
  let v := URL_Query (R_URL r) in
  let method := if statsOnly then "HEAD" else "GET" in
  exists new,
    calls (api x) = (calls a ++ new)%list /\
    (dispatched new = [] \/
     length (dispatched new) = length (members env)) /\
    (members env = [] -> dispatched new = []) /\
    (forall err, MakeQueryParams v = inl err -> dispatched new = []) /\
    (forall query hostport err,
       MakeQueryParams v = inr query ->
       In hostport (members env) ->
       url_Parse ("http://" ++ hostport ++ "/store" ++ APIPathInternalQuery)
         = inl err ->
       dispatched new = []) /\
    (forall query requests a1,
       members env <> [] ->
       MakeQueryParams v = inr query ->
       build_requests query method (members env) []
         (emit (call_MakeQueryParams v) (emit peer_Current a))
         = inr (requests, a1) ->
       dispatched new = requests /\
       length requests = length (members env)).
Proof.
intros x v method; subst x v method; unfold handleUserQuery.
destruct (length (members env) <=? 0)%nat eqn:Hlen.
{ exists [peer_Current]. split; [reflexivity |].
  repeat apply conj; try (intros; reflexivity); [left; reflexivity |].
  intros query requests a1 Hm; exfalso; apply Hm.
  destruct (members env); [reflexivity | discriminate]. }
destruct (MakeQueryParams _) as [err | query] eqn:Hq.
{ exists [peer_Current; call_MakeQueryParams (URL_Query (R_URL r))].
  cbn [returned api emit calls]; rewrite <- app_assoc.
  split; [reflexivity |].
  repeat apply conj; try (intros; reflexivity); [left; reflexivity |].
  intros query requests a1 _ [=]. }
destruct (build_requests _ _ _ _ _) as [[err a1] | [requests a1]] eqn:Hb.
{ pose proof (build_requests_inl _ _ _ _ _ _ _ Hb) as (Hc & _).
  exists [peer_Current; call_MakeQueryParams (URL_Query (R_URL r))].
  cbn [returned api]; rewrite Hc; cbn [emit calls]; rewrite <- app_assoc.
  split; [reflexivity |].
  repeat apply conj; try (intros; reflexivity); [left; reflexivity |].
  intros query' requests a1' _ [= <-] Hb'. rewrite Hb in Hb'; discriminate. }
pose proof (build_requests_inr _ _ _ _ _ _ _ Hb) as (Hl & Hc & _).
exists ([peer_Current; call_MakeQueryParams (URL_Query (R_URL r))]
        ++ map go_Do requests)%list.
split.
{ match goal with |- context [gather ?rs ?res ?b] =>
    pose proof (gather_api rs res b) as G;
    destruct (gather rs res b) as [[e a2] | [m a2]]
  end; destruct G as (G & _); cbn [returned api]; rewrite G, calls_emit_all, Hc;
  cbn [emit calls]; rewrite <- !app_assoc; reflexivity. }
cbn [app dispatched]; rewrite dispatched_go_Do.
repeat apply conj.
- right; rewrite Hl; reflexivity.
- intros Hm; rewrite Hm in Hlen; discriminate.
- intros err [=].
- intros query' hostport err [= <-] Hin Hbad.
  destruct (build_requests_bad_member query
              (if statsOnly then "HEAD" else "GET") (members env) []
              (emit (call_MakeQueryParams (URL_Query (R_URL r)))
                    (emit peer_Current a))
              hostport err Hin Hbad) as (e & a' & Hf).
  rewrite Hb in Hf; discriminate.
- intros query' requests' a1' _ [= <-] Hb'.
  rewrite Hb in Hb'; injection Hb' as <- <-.
  split; [reflexivity | rewrite Hl; reflexivity].
Qed.

(** X9. When the parameters are valid and every address parses, the
    calls of [handleUserQuery] are the snapshot, the parsing, and then one
    goroutine for each member, in the order of the snapshot, whatever the
    gather makes of the answers; each request is for
    [http://<member>/store/_query] and has the method HEAD for a
    stats-only query and GET otherwise. *)
Theorem handleUserQuery_dispatches_each_member
  (env : Env) (a : API) (w : writer) (r : Request) (statsOnly : bool)
  (query : QueryParams) (requests : list Request) (a1 : API) :
  members env <> [] ->
  MakeQueryParams (URL_Query (R_URL r)) = inr query ->
  build_requests query (if statsOnly then "HEAD" else "GET") (members env) []
    (emit (call_MakeQueryParams (URL_Query (R_URL r))) (emit peer_Current a))
    = inr (requests, a1) ->
  let x := handleUserQuery env a w r statsOnly in
  let method := if statsOnly then "HEAD" else "GET" in
  calls (api x) =
    (calls a ++ [peer_Current; call_MakeQueryParams (URL_Query (R_URL r))]
             ++ map go_Do requests)%list /\
  Forall2 (request_for method) (members env) requests /\
  Forall (fun req => Method req = method) requests.
Proof.
intros Hm Hq Hb x method; subst x method.
pose proof (build_requests_each _ _ _ _ _ _ _ Hb) as (news & E & HF).
cbn [app] in E; subst news.
split; [| split; [exact HF |]].
- unfold handleUserQuery.
  rewrite (members_checked env Hm), Hq, Hb.
  apply build_requests_inr in Hb as (_ & Hc & _).
  match goal with |- context [gather ?rs ?res ?b] =>
    pose proof (gather_api rs res b) as G;
    destruct (gather rs res b) as [[e a2] | [m a2]]
  end; destruct G as (G & _); cbn [returned api]; rewrite G, calls_emit_all, Hc;
  cbn [emit calls]; rewrite <- !app_assoc; reflexivity.
- exact (request_for_Method _ _ _ HF).
Qed.

Lemma gather_all_failed responses acc a :
  (forall x, In x responses -> succeeded x = false) ->
  exists a',
    gather responses acc a = inr (Nat.iter (length responses) ErrorCount_incr acc, a') /\
    length (logger a') = (length (logger a) + length responses)%nat.
Proof.
revert acc a; induction responses as [| x rest IH]; intros acc a H.
- exists a; split; [reflexivity | simpl; lia].
- assert (Hx : succeeded x = false) by (apply H; left; reflexivity).
  assert (Hr : forall y, In y rest -> succeeded y = false)
    by (intros y Hy; apply H; right; exact Hy).
  destruct x as [err | resp]; cbn [gather succeeded] in *.
  + destruct (IH (ErrorCount_incr acc) (Log (gather_err err) a) Hr) as (a' & E & L).
    exists a'; split.
    * rewrite E; cbn [length]; rewrite Nat.iter_succ_r; reflexivity.
    * rewrite L; cbn [Log logger length]; rewrite length_app; simpl; lia.
  + rewrite Hx; cbn [negb].
    destruct (IH (ErrorCount_incr acc) (Log (status_line resp) a) Hr) as (a' & E & L).
    exists a'; split.
    * rewrite E; cbn [length]; rewrite Nat.iter_succ_r; reflexivity.
    * rewrite L; cbn [Log logger length]; rewrite length_app; simpl; lia.
Qed.

Lemma iter_incr_aggregate0 (query : QueryParams) (n : nat) :
  Nat.iter n ErrorCount_incr (aggregate0 query) = all_failed query n "".
Proof.
induction n as [| n IH].
- reflexivity.
- rewrite Nat.iter_succ, IH; unfold ErrorCount_incr, all_failed;
    cbn [Params ErrorCount Duration Rest].
  rewrite wrap_int_add_l; do 2 f_equal; lia.
Qed.

(** X10. A query that no peer answers is still answered: when every
    outcome is a transport error or a status other than 200,
    [handleUserQuery] merges nothing and encodes a result with the
    parameters of the request, an [ErrorCount] that is the number of
    members, the elapsed time, and nothing else; each failure is logged. *)
Theorem handleUserQuery_all_peers_failed
  (env : Env) (a : API) (w : writer) (r : Request) (statsOnly : bool)
  (query : QueryParams) (requests : list Request) (a1 : API) :
  members env <> [] ->
  MakeQueryParams (URL_Query (R_URL r)) = inr query ->
  build_requests query (if statsOnly then "HEAD" else "GET") (members env) []
    (emit (call_MakeQueryParams (URL_Query (R_URL r))) (emit peer_Current a))
    = inr (requests, a1) ->
  (forall req, succeeded (Do env req) = false) ->
  exists a',
    handleUserQuery env a w r statsOnly =
      returned
        (do_wcalls
           (QueryResult_EncodeTo
              (all_failed query (length (members env)) (since env))) w) a' /\
    length (logger a') = (length (logger a) + length (members env))%nat.
Proof.
intros Hm Hq Hb Hf.
set (responses := receive (length requests) (arrival env) (map (Do env) requests)).
assert (Hall : forall x, In x responses -> succeeded x = false).
{ intros x Hx. subst responses.
  rewrite <- (length_map (Do env) requests) in Hx.
  apply (Permutation_in _ (receive_perm _ _)) in Hx.
  apply in_map_iff in Hx as (req & <- & _); apply Hf. }
assert (Hlen : length responses = length (members env))
  by exact (responses_length _ _ _ _ _ _ Hb).
destruct (gather_all_failed responses (aggregate0 query)
            (fold_left (fun a req => emit (go_Do req) a) requests a1) Hall)
  as (a' & G & L).
exists a'; split.
- unfold handleUserQuery.
  rewrite (members_checked env Hm), Hq, Hb.
  fold responses; fold (aggregate0 query); rewrite G, iter_incr_aggregate0, Hlen.
  reflexivity.
- rewrite L, Hlen. f_equal.
  assert (E : forall (l : list Request) b,
             logger (fold_left (fun a req => emit (go_Do req) a) l b) = logger b).
  { induction l as [| q l IHl]; intros b; simpl;
      [reflexivity | rewrite IHl; reflexivity]. }
  rewrite E.
  apply build_requests_inr in Hb as (_ & _ & Hg & _); rewrite Hg; reflexivity.
Qed.

End FanOutMore.

(** ** The internal query and the cluster state *)

Section Local.

Context {store : Store}.

(** X12. [handleInternalQuery] is local.  It answers 400 with the parse
    error for malformed parameters, without a call on the log; otherwise
    it asks the log once, with the parameters and the stats-only flag it
    was given, and answers 500 with the error of the log or encodes the
    result of the log as it is.  It asks no peer and sends no request, and
    it leaves the counters and the logger alone. *)
Theorem handleInternalQuery_local
  (env : Env) (a : API) (w : writer) (r : Request) (statsOnly : bool) :
  let x := handleInternalQuery env a w r statsOnly in
  let v := URL_Query (R_URL r) in
  out x = Returned /\
  logger (api x) = logger a /\
  replicatedSegments (api x) = replicatedSegments a /\
  replicatedBytes (api x) = replicatedBytes a /\
  match MakeQueryParams v with
  | inl err =>
      rw x = http_Error err http.StatusBadRequest w /\
      calls (api x) = (calls a ++ [call_MakeQueryParams v])%list
  | inr query =>
      calls (api x) =
        (calls a ++ [call_MakeQueryParams v; log_Query query statsOnly])%list /\
      match Query env query statsOnly with
      | inl err => rw x = http_Error err http.StatusInternalServerError w
      | inr result => rw x = do_wcalls (QueryResult_EncodeTo result) w
      end
  end.
Proof.
intros x v; subst x v; unfold handleInternalQuery.
destruct (MakeQueryParams _) as [err | query].
- repeat apply conj; reflexivity.
- destruct (Query env query statsOnly) as [err | result];
    cbn [returned out rw api emit calls logger replicatedSegments replicatedBytes];
    rewrite <- app_assoc; repeat apply conj; reflexivity.
Qed.


End Local.

(** ** The replication handler and the counters *)

Section ReplicateMore.

Context {store : Store}.

(** X14. The life of a segment in [handleReplicate]: when [Create] fails
    nothing is done to any segment; when it succeeds the segment is
    written by [mergeRecords] and then either deleted or closed, exactly
    one of the two and exactly once.  The body of the request is closed
    as the last call in every case. *)
Theorem handleReplicate_segment_lifecycle
  (env : Env) (a : API) (w : writer) (r : Request) :
  let x := handleReplicate env a w r in
  match Create env with
  | Some err =>
      calls (api x) = (calls a ++ [log_Create; Body_Close])%list /\
      rw x = http_Error err http.StatusInternalServerError w
  | None =>
      exists fate,
        calls (api x) =
          (calls a ++ [log_Create;
                       segment_Write (mergeRecords_written (R_Body r));
                       fate; Body_Close])%list /\
        (fate = segment_Delete \/
         exists low high n,
           mergeRecords (R_Body r) = (low, high, n, None) /\ n <> 0 /\
           fate = segment_Close low high)
  end.
Proof.
intros x; subst x; unfold handleReplicate.
destruct (Create env) as [err |].
{ cbn [returned out rw api emit calls]; rewrite <- app_assoc.
  split; reflexivity. }
destruct (mergeRecords (R_Body r)) as [[[low high] n] [err |]].
{ exists segment_Delete; cbn [returned out rw api emit calls];
    rewrite <- !app_assoc; split; [reflexivity | left; reflexivity]. }
destruct (Z.eqb_spec n 0) as [Hn | Hn].
{ exists segment_Delete; cbn [returned out rw api emit calls];
    rewrite <- !app_assoc; split; [reflexivity | left; reflexivity]. }
exists (segment_Close low high).
split; [| right; exists low, high, n; repeat apply conj; auto].
destruct (Close env low high) as [err |]; [| destruct (n <? 0)];
  cbn [returned out rw api emit calls replicatedSegments_Inc replicatedBytes_Add];
  rewrite <- !app_assoc; reflexivity.
Qed.

(** X15. The counters of [handleReplicate] never go down and move only
    with a commit: the segments counter grows by one exactly when a
    segment was created, [mergeRecords] returned some [n] other than 0
    without an error and [Close] succeeded, and stays otherwise; the
    bytes counter stays without a commit, and after a commit from which
    the handler returns it has grown by [n], which is positive then. *)
Theorem handleReplicate_counters
  (env : Env) (a : API) (w : writer) (r : Request) :
  let x := handleReplicate env a w r in
  let committed :=
    match Create env, mergeRecords (R_Body r) with
    | None, (low, high, n, None) =>
        negb (n =? 0) &&
        match Close env low high with None => true | Some _ => false end
    | _, _ => false
    end in
  replicatedSegments (api x) =
    replicatedSegments a + (if committed then 1 else 0) /\
  replicatedBytes a <= replicatedBytes (api x) /\
  (committed = false -> replicatedBytes (api x) = replicatedBytes a) /\
  (out x = Returned -> committed = true ->
   exists low high n,
     mergeRecords (R_Body r) = (low, high, n, None) /\ 0 < n /\
     replicatedBytes (api x) = replicatedBytes a + n).
Proof.
intros x committed; subst x committed; unfold handleReplicate.
destruct (Create env) as [err |].
{ cbn. repeat apply conj; try lia; discriminate. }
destruct (mergeRecords (R_Body r)) as [[[low high] n] [err |]].
{ cbn. repeat apply conj; try lia; discriminate. }
destruct (Z.eqb_spec n 0) as [Hn | Hn].
{ cbn. repeat apply conj; try lia; discriminate. }
destruct (Close env low high) as [err |].
{ cbn. repeat apply conj; try lia; discriminate. }
destruct (Z.ltb_spec n 0) as [Hneg | Hpos];
  cbn [negb andb returned out rw api emit calls replicatedSegments
       replicatedBytes replicatedSegments_Inc replicatedBytes_Add].
- repeat apply conj; try lia; try discriminate.
- repeat apply conj; try lia; try discriminate.
  intros _ _; exists low, high, n; repeat apply conj; try reflexivity; lia.
Qed.

Ltac steady_now :=
  cbn [returned out rw api emit calls replicatedSegments replicatedBytes];
  split; reflexivity.

Lemma handleUserQuery_steady env a w r statsOnly :
  let x := handleUserQuery env a w r statsOnly in
  replicatedSegments (api x) = replicatedSegments a /\
  replicatedBytes (api x) = replicatedBytes a.
Proof.
intros x; subst x; unfold handleUserQuery.
destruct (length (members env) <=? 0)%nat; [steady_now |].
destruct (MakeQueryParams _) as [err | query]; [steady_now |].
match goal with |- context [build_requests ?q ?m ?ms ?rs ?b] =>
  pose proof (build_requests_counters q m ms rs b) as B;
  destruct (build_requests q m ms rs b) as [[err a1] | [requests a1]]
end; [exact B |].
match goal with |- context [gather ?rs ?res ?b] =>
  pose proof (gather_api rs res b) as G;
  destruct (gather rs res b) as [[e a2] | [m a2]]
end; destruct G as (_ & _ & G1 & G2);
  destruct (counters_emit_all requests a1) as (E1 & E2);
  cbn [returned api]; rewrite G1, G2, E1, E2; exact B.
Qed.

Lemma handleUserStream_steady env a w r :
  let x := handleUserStream env a w r in
  replicatedSegments (api x) = replicatedSegments a /\
  replicatedBytes (api x) = replicatedBytes a.
Proof.
intros x; subst x; unfold handleUserStream.
destruct (MakeQueryParams _) as [err | query]; [steady_now |].
destruct (negb (assert_Flusher w)); [steady_now |].
destruct (user_stream_loop _ _); steady_now.
Qed.

Lemma handleInternalStream_steady env a w r :
  let x := handleInternalStream env a w r in
  replicatedSegments (api x) = replicatedSegments a /\
  replicatedBytes (api x) = replicatedBytes a.
Proof.
intros x; subst x; unfold handleInternalStream.
destruct (MakeQueryParams _) as [err | query]; [steady_now |].
destruct (negb (assert_Flusher w)); [steady_now |].
destruct (internal_stream_loop _ _); steady_now.
Qed.

(** X16. Only the replication route moves the replication counters: a
    request that is not a POST of [/replicate] leaves both as they were,
    whatever handler it reaches and however that handler ends. *)
Theorem ServeHTTP_counters_replicate_only
  (env : Env) (a : API) (w : http.conn) (r : Request) :
  (Method r, Path (R_URL r)) <> ("POST", APIPathReplicate) ->
  let x := snd (ServeHTTP env a w r) in
  replicatedSegments (api x) = replicatedSegments a /\
  replicatedBytes (api x) = replicatedBytes a.
Proof.
intros Hn x; subst x.
assert (R : let y := snd (route env a (Intercepting (mkIW http.StatusOK w)) r) in
            replicatedSegments (api y) = replicatedSegments a /\
            replicatedBytes (api y) = replicatedBytes a).
{ unfold route.
  repeat match goal with
  | |- context [if ?c then _ else _] => destruct c eqn:?
  end; cbn [snd];
    try apply handleUserQuery_steady;
    try apply handleUserStream_steady;
    try apply handleInternalStream_steady;
    try (unfold handleInternalQuery;
         destruct (MakeQueryParams _) as [err | query]; [steady_now |];
         destruct (Query env query _); steady_now);
    try (unfold handleClusterState; destruct (State env); steady_now);
    try steady_now.
  exfalso; apply Hn.
  match goal with H : (_ && _)%bool = true |- _ =>
    apply andb_prop in H as (H1 & H2);
    apply String.eqb_eq in H1, H2; rewrite H1, H2; reflexivity
  end. }
unfold ServeHTTP.
destruct (route env a (Intercepting (mkIW http.StatusOK w)) r) as [r' y].
cbn [snd] in R. destruct (out y); exact R.
Qed.

End ReplicateMore.

(** ** More runs on the sample store *)

Section MoreRuns.

Import Model Sample Sample2.

(** A DELETE of [/query] is not routed. *)
Lemma ServeHTTP_not_found_witness :
  ~ In (Method delete_query, Path (R_URL delete_query)) routes /\
  http.status (sent (rw (snd (ServeHTTP env0 api0 std_conn delete_query))))
    = Some http.StatusNotFound /\
  calls (api (snd (ServeHTTP env0 api0 std_conn delete_query))) = [].
Proof.
assert (H : ~ In (Method delete_query, Path (R_URL delete_query)) routes).
{ cbn; intros H; decompose [or] H; try discriminate; contradiction. }
split; [exact H |].
destruct (ServeHTTP_not_found env0 api0 std_conn delete_query H) as (E & Hs).
split; [exact (Hs eq_refl) | rewrite E; reflexivity].
Defined.


(** A write and then a [WriteHeader(500)]: 200 goes out, 500 is held. *)
Lemma interceptingWriter_code_and_status_witness :
  final_codes [call_Write "x"; call_WriteHeader 500] = true /\
  http.status (http.conn_resp std_conn) = None /\
  let w := do_wcalls [call_Write "x"; call_WriteHeader 500] w0 in
  iw_code w = 500 /\ http.status (sent w) = Some http.StatusOK.
Proof.
split; [reflexivity |]. split; [reflexivity |].
exact (interceptingWriter_code_and_status
         [call_Write "x"; call_WriteHeader 500]
         (mkIW http.StatusOK std_conn) eq_refl eq_refl).
Defined.

Lemma Model_EncodeTo_header_first :
  forall qr : Result, header_first (QueryResult_EncodeTo qr) = true.
Proof. intros qr; reflexivity. Qed.

(** The query for [foo] on the three peers: the sample says 200, as the
    response does. *)
Lemma ServeHTTP_label_is_status_witness :
  (forall qr : Result, header_first (QueryResult_EncodeTo qr) = true) /\
  http.status (http.conn_resp std_conn) = None /\
  let x := snd (ServeHTTP env0 api0 std_conn query_foo) in
  http.status (sent (rw x)) = Some http.StatusOK /\
  duration (api x) = [("GET", "/query", http.StatusOK)].
Proof.
split; [exact Model_EncodeTo_header_first |]. split; [reflexivity |].
destruct (ServeHTTP_label_is_status (store := Model.store)
            Model_EncodeTo_header_first env0 api0
            std_conn query_foo eq_refl) as (_ & Hd).
split; [reflexivity | exact Hd].
Defined.



(** A stream request with a bound that is not a time. *)
Lemma ServeHTTP_stream_bad_request_witness :
  Method stream_malformed = "GET" /\
  (Path (R_URL stream_malformed) = APIPathUserStream \/
   Path (R_URL stream_malformed) = APIPathInternalStream) /\
  MakeQueryParams (URL_Query (R_URL stream_malformed))
    = inl "parsing 'to': not a time" /\
  http.status (sent (rw (snd (ServeHTTP env0 api0 std_conn stream_malformed))))
    = Some http.StatusBadRequest.
Proof.
split; [reflexivity |]. split; [left; reflexivity |]. split; [reflexivity |].
destruct (ServeHTTP_stream_bad_request env0 api0 std_conn stream_malformed
            "parsing 'to': not a time" eq_refl (or_introl eq_refl) eq_refl)
  as (_ & _ & Hs & _).
exact (Hs eq_refl).
Defined.

(** Two members, the second with an address that does not parse: the
    first gets no request either. *)
Lemma handleUserQuery_dispatch_all_or_none_witness :
  In "10.0.0.2 :7650" (members bad_member) /\
  url_Parse ("http://" ++ "10.0.0.2 :7650" ++ "/store" ++ APIPathInternalQuery)
    = inl "parse http://10.0.0.2 :7650/store/_query: invalid character in host name" /\
  let x := handleUserQuery bad_member api0 w0 query_foo false in
  dispatched (calls (api x)) = [] /\
  http.status (sent (rw x)) = Some http.StatusInternalServerError.
Proof.
split; [right; left; reflexivity |]. split; [reflexivity |].
destruct (handleUserQuery_dispatch_all_or_none bad_member api0 w0 query_foo false)
  as (new & Hc & _ & _ & _ & Hbad & _).
cbv zeta; rewrite Hc; cbn [api0 calls app].
split; [| reflexivity].
eapply (Hbad (params "foo") "10.0.0.2 :7650");
  [reflexivity | right; left; reflexivity | reflexivity].
Defined.

(** The query for [foo] on the three peers: three GET requests, in the
    order of the snapshot. *)
Lemma handleUserQuery_dispatches_each_member_witness :
  members env0 <> [] /\
  MakeQueryParams (URL_Query (R_URL query_foo)) = inr (params "foo") /\
  let x := handleUserQuery env0 api0 w0 query_foo false in
  map (fun req => (Method req, URL_String (R_URL req))) (dispatched (calls (api x))) =
    [("GET", "http://10.0.0.1:7650/store/_query");
     ("GET", "http://10.0.0.2:7650/store/_query");
     ("GET", "http://10.0.0.3:7650/store/_query")].
Proof.
split; [discriminate |]. split; [reflexivity |].
pose proof (handleUserQuery_dispatches_each_member env0 api0 w0 query_foo false
              (params "foo")) as H.
edestruct H as (Hc & _ & _); [discriminate | reflexivity | reflexivity |].
cbv zeta; rewrite Hc; reflexivity.
Defined.

(** The query for [foo] when no peer can be reached: three errors. *)
Lemma handleUserQuery_all_peers_failed_witness :
  members all_down <> [] /\
  MakeQueryParams (URL_Query (R_URL query_foo)) = inr (params "foo") /\
  (forall req, succeeded (Do all_down req) = false) /\
  exists a',
    handleUserQuery all_down api0 w0 query_foo false =
      returned
        (do_wcalls
           (QueryResult_EncodeTo (mkQueryResult (params "foo") 3 "3ms" 0)) w0) a' /\
    length (logger a') = 3%nat.
Proof.
split; [discriminate |]. split; [reflexivity |].
split; [intros req; reflexivity |].
pose proof (handleUserQuery_all_peers_failed all_down api0 w0 query_foo false
              (params "foo")) as H.
edestruct H as (a' & E & L);
  [discriminate | reflexivity | reflexivity | intros req; reflexivity |].
exists a'; split; [exact E | exact L].
Defined.


(** A query leaves the replication counters alone. *)
Lemma ServeHTTP_counters_replicate_only_witness :
  (Method query_foo, Path (R_URL query_foo)) <> ("POST", APIPathReplicate) /\
  let x := snd (ServeHTTP env0 api0 std_conn query_foo) in
  replicatedSegments (api x) = 0 /\ replicatedBytes (api x) = 0.
Proof.
split; [discriminate |].
exact (ServeHTTP_counters_replicate_only env0 api0 std_conn query_foo
         ltac:(discriminate)).
Defined.

End MoreRuns.
